(** * KafkaWriter: a shallow embedding of src/KafkaWriter.cc

    The writer backend is a C++ class driven by one host thread.  Its
    methods are embedded as computations in a small state-and-failure
    monad over
      - the instance fields of the object ([KafkaWriter]),
      - a heap of the objects it allocates with [new] or obtains from the
        broker client library (formatter, configuration objects, producer,
        topic handle), and
      - the sequence of messages sent to the host and of calls made to the
        broker client.
    The broker client library (librdkafka's C++ interface) is not part of
    the sources; it is an interface ([RdKafka]) over which every general
    theorem is quantified, with one simulated instance used to run the
    code on concrete inputs. *)

From Stdlib Require Import ZArith String Ascii List Lia DecimalString.
From stdpp Require Import base option gmap.
From Stdlib Require Import Sorting.Sorted.
From stdpp Require sorting.
Import ListNotations.

Local Open Scope Z_scope.
Local Open Scope string_scope.

(** ** Machine integers: the C++ type [int] (32 bits, two's complement) *)

Definition INT_MIN : Z := - 2 ^ 31.
Definition INT_MAX : Z := 2 ^ 31 - 1.

(** Conversion of an integer value to [int], keeping the low 32 bits. *)
Definition to_int (z : Z) : Z := (z + 2 ^ 31) mod 2 ^ 32 - 2 ^ 31.

(** [a + b] on [int], with the wrap-around written out. *)
Definition int_add (a b : Z) : Z := to_int (a + b).

Definition in_int (z : Z) : Prop := INT_MIN <= z <= INT_MAX.

(** ** C strings *)

Definition NUL : ascii := Ascii.zero.

(** [c_str s]: what a reader of the NUL-terminated buffer of [s] sees, the
    characters before the first NUL.  This is what [%s] prints, what
    [strlen] counts and what constructing a [std::string] from a
    [const char*] copies. *)
Fixpoint c_str (s : string) : string :=
  match s with
  | EmptyString => EmptyString
  | String c s' => if Ascii.eqb c NUL then EmptyString else String c (c_str s')
  end.

Definition strlen (s : string) : nat := String.length (c_str s).

(** [s.empty()] *)
Definition empty (s : string) : bool :=
  match s with EmptyString => true | _ => false end.

(** The character [c] occurs in [s]. *)
Fixpoint occurs (c : ascii) (s : string) : Prop :=
  match s with
  | EmptyString => False
  | String c' s' => c' = c \/ occurs c s'
  end.

(** [%d] of an [int]. *)
Definition fmt_d (z : Z) : string := NilZero.string_of_int (Z.to_int z).

(** The format strings of the source, one function per [Fmt] call.  Every
    [%s] argument is passed as [c_str()]. *)
Definition Fmt_debug_on (debug contexts : string) : string :=
  "Debug is turned on and set to: " ++ c_str debug
    ++ ".  Available debug context: " ++ c_str contexts ++ ".".

Definition Fmt_debug_off : string := "Debug is turned off.".

Definition Fmt_failed_to_set (key val err : string) : string :=
  "Failed to set '" ++ c_str key ++ "'='" ++ c_str val ++ "': " ++ c_str err.

Definition Fmt_failed_producer (err : string) : string :=
  "Failed to create producer: " ++ c_str err.

Definition Fmt_failed_topic (err : string) : string :=
  "Failed to create topic handle: " ++ c_str err.

Definition Fmt_created : string := "Successfully created producer.".

Definition Fmt_unable_to_deliver (n : Z) : string :=
  "Unable to deliver " ++ fmt_d n ++ " message(s)".

Definition Fmt_send_failed (err : string) : string :=
  "Kafka send failed: " ++ c_str err.

(** ** [std::map<string,string>]

    An association list kept sorted by key (the iteration order of
    [std::map]) with unique keys.  [insert] leaves the map unchanged when
    the key is already present; the position hint of the source only
    affects speed. *)

Definition std_map : Type := list (string * string).

Fixpoint map_insert (key val : string) (m : std_map) : std_map :=
  match m with
  | [] => [(key, val)]
  | (k, v) :: m' =>
      match String.compare key k with
      | Lt => (key, val) :: m
      | Eq => m
      | Gt => (k, v) :: map_insert key val m'
      end
  end.

(** ** The host's shared configuration store, [BifConst::Kafka]

    The declarations of these script-level constants are not in the
    sources.  [kafka_conf] is the table as its iteration delivers it: the
    bytes of the key and of the value of each entry.
    [max_wait_on_shutdown] is an integer; the source converts it to [int]
    where it reads it. *)

Module BifConst.
Record t : Type := mk {
  tag_json : bool;
  topic_name : string;
  kafka_conf : list (string * string);
  debug : string;
  max_wait_on_shutdown : Z
}.
End BifConst.

(** ** The formatters of the host's threading library *)

Inductive TimeFormat : Type := TS_EPOCH | TS_MILLIS | TS_ISO8601.

Inductive Formatter : Type :=
| TaggedJSON (path : string) (tf : TimeFormat)
| JSON (tf : TimeFormat).

(** [WriterInfo]: only the output-stream path is used. *)
Record WriterInfo : Type := { path : string }.

(** ** The broker client library *)

Inductive ConfType : Type := CONF_GLOBAL | CONF_TOPIC.

(** [RdKafka::Conf::ConfResult]; a rejection carries the text the library
    writes into [errstr]. *)
Inductive ConfResult : Type :=
| CONF_UNKNOWN (errstr : string)
| CONF_INVALID (errstr : string)
| CONF_OK.

(** A configuration object: its kind and the settings applied so far. *)
Record Conf : Type := { conf_type : ConfType; settings : list (string * string) }.

Definition ErrorCode : Type := Z.
Definition ERR_NO_ERROR : ErrorCode := 0.
Definition PARTITION_UA : Z := -1.
Definition RK_MSG_COPY : Z := 2.

(** The operations of the library the writer calls.  A failing [create]
    returns the text written into [errstr]. *)
Class RdKafka : Type := {
  Producer : Type;
  Topic : Type;
  Conf_set : ConfType -> string -> string -> ConfResult;
  Producer_create : Conf -> Producer + string;
  Topic_create : Producer -> string -> Conf -> Topic + string;
  outq_len : Producer -> Z;
  poll : Producer -> Z -> Producer;
  produce : Producer -> Topic -> Z -> Z -> string -> ErrorCode * Producer;
  err2str : ErrorCode -> string;
  get_debug_contexts : string
}.

(** ** The writer object, the heap and the monad *)

(** A pointer: [NULL] or an address. *)
Definition ptr : Type := option nat.
Definition NULL : ptr := None.

(** The host's side of a write: [LogEntry] is one record as the host
    passes it ([num_fields], [fields], [vals]), and [Describe] the bytes a
    formatter writes into the buffer for it.  The host's buffer keeps a
    NUL after its content, so that reading it as a C string stops at the
    first NUL of the content or at its end.  [FinishedRotation] is what
    the base class's method of that name returns.

    The host's side of the construction: [CheckString] is what
    [BroString::CheckString] returns for the bytes of a script-level
    string, the characters at the pointer it hands back; and
    [uninit_conf], [uninit_topic_conf] are what the fields [conf] and
    [topic_conf], which the constructor does not initialise, hold in the
    memory of a new object. *)
Class Host : Type := {
  LogEntry : Type;
  Describe : Formatter -> LogEntry -> string;
  FinishedRotation : bool;
  CheckString : string -> string;
  uninit_conf : ptr;
  uninit_topic_conf : ptr
}.

(** The instance fields.  The three handles are set to [NULL] by the
    constructor's initialiser list; [conf] and [topic_conf] are left as
    they are by the constructor and assigned in [DoInit] before any use. *)
Record KafkaWriter : Type := mkWriter {
  tag_json : bool;
  topic_name : string;
  kafka_conf : std_map;
  formatter : ptr;
  producer : ptr;
  topic : ptr;
  conf : ptr;
  topic_conf : ptr
}.

(** What the host and the library see of a method call. *)
Inductive Event : Type :=
| MsgInfo (msg : string)
| MsgError (msg : string)
| CallConfSet (key val : string)
| CallProducerCreate (c : Conf)
| CallTopicCreate (name : string)
| CallPoll (timeout : Z)
| CallProduce (partition msgflags : Z) (payload : string)
| CallFinishedRotation.

Section Writer.
Context `{RdKafka} `{Host}.

Inductive Object : Type :=
| OFormatter (f : Formatter)
| OConf (c : Conf)
| OProducer (p : Producer)
| OTopic (t : Topic).

Record State : Type := mkState {
  this : KafkaWriter;
  heap : gmap nat Object;
  brk : nat;
  events : list Event
}.

(** A method call returns a value and a new state, or it has no defined
    behaviour (a null or dangling pointer is used), or the model's loop
    ran out of fuel. *)
Inductive outcome (A : Type) : Type :=
| Ret (a : A) (s : State)
| Undefined
| OutOfFuel.
Global Arguments Ret {A} a s.
Global Arguments Undefined {A}.
Global Arguments OutOfFuel {A}.

Definition M (A : Type) : Type := State -> outcome A.

Global Instance M_ret : MRet M := fun A a s => Ret a s.
Global Instance M_bind : MBind M := fun A B f m s =>
  match m s with
  | Ret a s' => f a s'
  | Undefined => Undefined
  | OutOfFuel => OutOfFuel
  end.

Definition undefined {A} : M A := fun _ => Undefined.
Definition out_of_fuel {A} : M A := fun _ => OutOfFuel.

Definition get_this : M KafkaWriter := fun s => Ret (this s) s.
Definition emit (e : Event) : M unit :=
  fun s => Ret tt (mkState (this s) (heap s) (brk s) (events s ++ [e])).

(** [MsgThread::Info] and [WriterBackend::Error]. *)
Definition Info (msg : string) : M unit := emit (MsgInfo msg).
Definition Error (msg : string) : M unit := emit (MsgError msg).

(** [new]: the object is placed at a fresh address. *)
Definition new (o : Object) : M ptr := fun s =>
  Ret (Some (brk s))
      (mkState (this s) (<[brk s := o]> (heap s)) (S (brk s)) (events s)).

(** [delete p]: nothing for [NULL]; undefined for a dangling pointer. *)
Definition cxx_delete (p : ptr) : M unit := fun s =>
  match p with
  | None => Ret tt s
  | Some a =>
      match heap s !! a with
      | Some _ => Ret tt (mkState (this s) (base.delete a (heap s)) (brk s) (events s))
      | None => Undefined
      end
  end.

(** [*p]: undefined for [NULL] and for a dangling pointer. *)
Definition load (p : ptr) : M Object := fun s =>
  match p with
  | None => Undefined
  | Some a => match heap s !! a with Some o => Ret o s | None => Undefined end
  end.

Definition store (p : ptr) (o : Object) : M unit := fun s =>
  match p with
  | None => Undefined
  | Some a =>
      match heap s !! a with
      | Some _ => Ret tt (mkState (this s) (<[a := o]> (heap s)) (brk s) (events s))
      | None => Undefined
      end
  end.

Definition load_producer (p : ptr) : M Producer :=
  o ← load p; match o with OProducer x => mret x | _ => undefined end.
Definition load_topic (p : ptr) : M Topic :=
  o ← load p; match o with OTopic x => mret x | _ => undefined end.
Definition load_formatter (p : ptr) : M Formatter :=
  o ← load p; match o with OFormatter x => mret x | _ => undefined end.
Definition load_conf (p : ptr) : M Conf :=
  o ← load p; match o with OConf x => mret x | _ => undefined end.

Definition modify (f : KafkaWriter -> KafkaWriter) : M unit :=
  fun s => Ret tt (mkState (f (this s)) (heap s) (brk s) (events s)).

Definition set_topic_name (v : string) (w : KafkaWriter) : KafkaWriter :=
  mkWriter (tag_json w) v (kafka_conf w) (formatter w) (producer w) (topic w)
           (conf w) (topic_conf w).
Definition set_formatter (v : ptr) (w : KafkaWriter) : KafkaWriter :=
  mkWriter (tag_json w) (topic_name w) (kafka_conf w) v (producer w) (topic w)
           (conf w) (topic_conf w).
Definition set_producer (v : ptr) (w : KafkaWriter) : KafkaWriter :=
  mkWriter (tag_json w) (topic_name w) (kafka_conf w) (formatter w) v (topic w)
           (conf w) (topic_conf w).
Definition set_topic (v : ptr) (w : KafkaWriter) : KafkaWriter :=
  mkWriter (tag_json w) (topic_name w) (kafka_conf w) (formatter w) (producer w) v
           (conf w) (topic_conf w).
Definition set_conf (v : ptr) (w : KafkaWriter) : KafkaWriter :=
  mkWriter (tag_json w) (topic_name w) (kafka_conf w) (formatter w) (producer w)
           (topic w) v (topic_conf w).
Definition set_topic_conf (v : ptr) (w : KafkaWriter) : KafkaWriter :=
  mkWriter (tag_json w) (topic_name w) (kafka_conf w) (formatter w) (producer w)
           (topic w) (conf w) v.

(** ** The constructor (lines 23-54)

    [tag_json] and [topic_name] are copied from the shared store, and the
    entries of the [kafka_conf] table are inserted one by one, key and
    value each a [std::string] built from the pointer [CheckString]
    returns for it (lines 46-47), that is from the characters there up to
    the first NUL. *)
Definition KafkaWriter_new (bif : BifConst.t) : KafkaWriter :=
  {| tag_json := BifConst.tag_json bif;
     topic_name := BifConst.topic_name bif;
     kafka_conf :=
       fold_left (fun m kv => map_insert (c_str (CheckString (fst kv)))
                                         (c_str (CheckString (snd kv))) m)
                 (BifConst.kafka_conf bif) [];
     formatter := NULL;
     producer := NULL;
     topic := NULL;
     conf := uninit_conf;
     topic_conf := uninit_topic_conf |}.

(** The state right after construction, on a heap holding nothing yet. *)
Definition constructed (bif : BifConst.t) : State :=
  mkState (KafkaWriter_new bif) ∅ 0 [].

(** ** Calls on the producer handle *)

(** [producer->outq_len()] *)
Definition producer_outq_len : M Z :=
  w ← get_this; p ← load_producer (producer w); mret (outq_len p).

(** [producer->poll(timeout)] *)
Definition producer_poll (timeout : Z) : M unit :=
  w ← get_this;
  p ← load_producer (producer w);
  emit (CallPoll timeout);;
  store (producer w) (OProducer (poll p timeout)).

(** ** DoInit (lines 59-130) *)

(** [conf->set(key, val, err)] followed by the error report of lines 95-98
    and 104-107; the result tells whether initialisation goes on. *)
Definition conf_set_or_fail (c : ptr) (key val : string) : M bool :=
  cf ← load_conf c;
  emit (CallConfSet key val);;
  match Conf_set (conf_type cf) key val with
  | CONF_OK =>
      store c (OConf {| conf_type := conf_type cf;
                        settings := settings cf ++ [(key, val)] |});;
      mret true
  | CONF_UNKNOWN err | CONF_INVALID err =>
      Error (Fmt_failed_to_set key val err);; mret false
  end.

(** The loop of lines 90-99 over the instance's map. *)
Fixpoint apply_settings (c : ptr) (m : std_map) : M bool :=
  match m with
  | [] => mret true
  | (key, val) :: m' =>
      ok ← conf_set_or_fail c key val;
      if (ok : bool) then apply_settings c m' else mret false
  end.

Definition tconf_empty : Conf := {| conf_type := CONF_TOPIC; settings := [] |}.
Definition gconf_empty : Conf := {| conf_type := CONF_GLOBAL; settings := [] |}.

Definition DoInit (bif : BifConst.t) (info : WriterInfo) : M bool :=
  w ← get_this;
  (if empty (topic_name w) then modify (set_topic_name (path info)) else mret tt);;
  f ← new (OFormatter (if BifConst.tag_json bif
                       then TaggedJSON (path info) TS_EPOCH
                       else JSON TS_EPOCH));
  modify (set_formatter f);;
  let debug := BifConst.debug bif in
  let is_debug := negb (empty debug) in
  (if is_debug
   then Info (Fmt_debug_on debug get_debug_contexts)
   else Info Fmt_debug_off);;
  c ← new (OConf gconf_empty);
  modify (set_conf c);;
  w ← get_this;
  ok ← apply_settings c (kafka_conf w);
  if negb (ok : bool) then mret false else
  ok ← (if is_debug then conf_set_or_fail c "debug" debug else mret true);
  if negb (ok : bool) then mret false else
  cf ← load_conf c;
  emit (CallProducerCreate cf);;
  match Producer_create cf with
  | inr err =>
      modify (set_producer NULL);;
      Error (Fmt_failed_producer err);; mret false
  | inl p =>
      pp ← new (OProducer p);
      modify (set_producer pp);;
      tc ← new (OConf tconf_empty);
      modify (set_topic_conf tc);;
      w ← get_this;
      emit (CallTopicCreate (topic_name w));;
      match Topic_create p (topic_name w) tconf_empty with
      | inr err =>
          modify (set_topic NULL);;
          Error (Fmt_failed_topic err);; mret false
      | inl t =>
          tp ← new (OTopic t);
          modify (set_topic tp);;
          (if is_debug then Info Fmt_created else mret tt);;
          mret true
      end
  end.

(** ** DoFinish (lines 137-162) *)

(** The loop of lines 145-148.  [waited] is an [int]; the loop is run for
    at most [fuel] evaluations of its condition. *)
Fixpoint drain (fuel : nat) (poll_interval waited max_wait : Z) : M Z :=
  match fuel with
  | O => out_of_fuel
  | S fuel' =>
      q ← producer_outq_len;
      if (0 <? q)%Z && (waited <=? max_wait)%Z
      then producer_poll poll_interval;;
           drain fuel' poll_interval (int_add waited poll_interval) max_wait
      else mret waited
  end.

Definition DoFinish (fuel : nat) (bif : BifConst.t) : M bool :=
  let poll_interval := 1000 in
  let max_wait := to_int (BifConst.max_wait_on_shutdown bif) in
  drain fuel poll_interval 0 max_wait;;
  q ← producer_outq_len;
  success ← (if (q =? 0)%Z then mret true
             else n ← producer_outq_len;
                  Error (Fmt_unable_to_deliver n);; mret false);
  w ← get_this;
  cxx_delete (topic w);;
  cxx_delete (producer w);;
  cxx_delete (formatter w);;
  mret success.

(** ** DoWrite (lines 168-191) *)

Definition DoWrite (entry : LogEntry) : M bool :=
  w ← get_this;
  f ← load_formatter (formatter w);
  let raw := Describe f entry in
  p ← load_producer (producer w);
  t ← load_topic (topic w);
  let payload := substring 0 (strlen raw) raw in
  emit (CallProduce PARTITION_UA RK_MSG_COPY payload);;
  let (resp, p') := produce p t PARTITION_UA RK_MSG_COPY payload in
  store (producer w) (OProducer p');;
  (if (resp =? ERR_NO_ERROR)%Z
   then producer_poll 0
   else Error (Fmt_send_failed (err2str resp)));;
  mret true.

(** ** DoSetBuf, DoFlush, DoRotate, DoHeartbeat (lines 202-241)

    The time and path arguments, which the bodies do not use, are left
    out. *)

Definition DoSetBuf (enabled : bool) : M bool := mret true.

Definition DoFlush : M bool := producer_poll 0;; mret true.

Definition DoRotate : M bool := emit CallFinishedRotation;; mret FinishedRotation.

Definition DoHeartbeat : M bool := producer_poll 0;; mret true.

(** ** The calls the host makes between [DoInit] and [DoFinish] *)

Inductive Call : Type :=
| CWrite (entry : LogEntry)
| CSetBuf (enabled : bool)
| CFlush
| CRotate
| CHeartbeat.

Definition do_call (c : Call) : M bool :=
  match c with
  | CWrite entry => DoWrite entry
  | CSetBuf enabled => DoSetBuf enabled
  | CFlush => DoFlush
  | CRotate => DoRotate
  | CHeartbeat => DoHeartbeat
  end.

(** Runs the calls in order and collects what each returned. *)
Fixpoint do_calls (cs : list Call) : M (list bool) :=
  match cs with
  | [] => mret []
  | c :: cs' => b ← do_call c; bs ← do_calls cs'; mret (b :: bs)
  end.

(** ** Vocabulary of the properties *)

(** The answer of the global configuration object to one setting: the
    reason when it rejects it. *)
Definition rejection (key val : string) : option string :=
  match Conf_set CONF_GLOBAL key val with
  | CONF_OK => None
  | CONF_UNKNOWN err | CONF_INVALID err => Some err
  end.

Definition accepted (kv : string * string) : bool :=
  match Conf_set CONF_GLOBAL (fst kv) (snd kv) with CONF_OK => true | _ => false end.

(** The settings the loop of lines 90-99 applies, and what it emits. *)
Fixpoint applied (m : std_map) : list (string * string) :=
  match m with
  | [] => []
  | kv :: m' => if accepted kv then kv :: applied m' else []
  end.

Fixpoint loop_events (m : std_map) : list Event :=
  match m with
  | [] => []
  | (key, val) :: m' =>
      CallConfSet key val ::
      match Conf_set CONF_GLOBAL key val with
      | CONF_OK => loop_events m'
      | CONF_UNKNOWN err | CONF_INVALID err =>
          [MsgError (Fmt_failed_to_set key val err)]
      end
  end.

Definition gconf (l : list (string * string)) : Conf :=
  {| conf_type := CONF_GLOBAL; settings := l |}.

(** A handle field that is non-null and points to a live object. *)
Definition live_formatter (s : State) (a : nat) (f : Formatter) : Prop :=
  formatter (this s) = Some a /\ heap s !! a = Some (OFormatter f).
Definition live_producer (s : State) (a : nat) (p : Producer) : Prop :=
  producer (this s) = Some a /\ heap s !! a = Some (OProducer p).
Definition live_topic (s : State) (a : nat) (t : Topic) : Prop :=
  topic (this s) = Some a /\ heap s !! a = Some (OTopic t).

(** The backend owns a formatter, a producer and a topic handle. *)
Definition Operational (s : State) : Prop :=
  exists af f ap p at_ t,
    live_formatter s af f /\ live_producer s ap p /\ live_topic s at_ t.

(** The events a call appended. *)
Definition appended (s s' : State) (evs : list Event) : Prop :=
  events s' = (events s ++ evs)%list.

Definition is_create (e : Event) : bool :=
  match e with
  | CallProducerCreate _ | CallTopicCreate _ => true
  | _ => false
  end.

Definition is_produce (e : Event) : bool :=
  match e with CallProduce _ _ _ => true | _ => false end.

(** The producer after [n] polls, and the counter of line 147 after [n]
    additions of the interval to [w]. *)
Fixpoint polls (n : nat) (timeout : Z) (p : Producer) : Producer :=
  match n with
  | O => p
  | S n' => polls n' timeout (poll p timeout)
  end.

Fixpoint waited_from (w : Z) (n : nat) (poll_interval : Z) : Z :=
  match n with
  | O => w
  | S n' => waited_from (int_add w poll_interval) n' poll_interval
  end.

(** The condition of the loop of line 145. *)
Definition loop_cond (q waited max_wait : Z) : bool :=
  (0 <? q)%Z && (waited <=? max_wait)%Z.

(** The loop started with counter [w] and producer [p] leaves after
    exactly [n] polls. *)
Definition exits_at (p : Producer) (w max_wait : Z) (n : nat) : Prop :=
  loop_cond (outq_len (polls n 1000 p)) (waited_from w n 1000) max_wait = false /\
  forall i, (i < n)%nat ->
    loop_cond (outq_len (polls i 1000 p)) (waited_from w i 1000) max_wait = true.

(** What [DoWrite] submits, and how the call goes on after the answer. *)
Definition write_post (s : State) (ap : nat) (p : Producer) (t : Topic)
    (payload : string) : State :=
  let (resp, p') := produce p t PARTITION_UA RK_MSG_COPY payload in
  mkState (this s)
    (<[ap := OProducer (if (resp =? ERR_NO_ERROR)%Z then poll p' 0 else p')]> (heap s))
    (brk s)
    (events s ++ CallProduce PARTITION_UA RK_MSG_COPY payload ::
       (if (resp =? ERR_NO_ERROR)%Z
        then [CallPoll 0]
        else [MsgError (Fmt_send_failed (err2str resp))])).

End Writer.

(** ** A simulated broker client and host

    One instance of the two interfaces, used to run the writer on concrete
    inputs.  The simulated producer keeps its outbound queue as a list; a
    blocking poll delivers up to [rate] queued messages, a zero-timeout
    poll delivers none; [produce] refuses a payload longer than
    [max_bytes], and any payload once [capacity] messages are queued.  A
    configuration property is accepted when its name is known (and, for
    [debug], when the value is one of the debug contexts); a topic handle
    is refused for an empty topic name. *)

Module Sim.

Record producer : Type := mkProducer {
  queue : list string;
  capacity : nat;
  max_bytes : nat;
  rate : nat
}.

Definition known_properties : list string :=
  ["bootstrap.servers"; "metadata.broker.list"; "client.id"; "debug"].

Definition debug_contexts : list string :=
  ["all"; "generic"; "broker"; "topic"; "metadata"; "queue"; "msg"; "protocol"].

Definition mem (x : string) (l : list string) : bool :=
  existsb (String.eqb x) l.

Definition conf_set (ty : ConfType) (key val : string) : ConfResult :=
  match ty with
  | CONF_TOPIC => CONF_UNKNOWN ("No such configuration property: " ++ key)
  | CONF_GLOBAL =>
      if mem key known_properties then
        if String.eqb key "debug" && negb (mem val debug_contexts)
        then CONF_INVALID ("Invalid value for configuration property " ++ key)
        else CONF_OK
      else CONF_UNKNOWN ("No such configuration property: " ++ key)
  end.

Definition ERR__QUEUE_FULL : ErrorCode := -184.
Definition ERR_MSG_SIZE_TOO_LARGE : ErrorCode := 10.

Definition sim_produce (p : producer) (payload : string) : ErrorCode * producer :=
  if (max_bytes p <? String.length payload)%nat then (ERR_MSG_SIZE_TOO_LARGE, p)
  else if (length (queue p) <? capacity p)%nat
  then (ERR_NO_ERROR,
        mkProducer (queue p ++ [payload]) (capacity p) (max_bytes p) (rate p))
  else (ERR__QUEUE_FULL, p).

Definition sim_poll (p : producer) (timeout : Z) : producer :=
  if (0 <? timeout)%Z
  then mkProducer (skipn (rate p) (queue p)) (capacity p) (max_bytes p) (rate p)
  else p.

Definition sim_err2str (e : ErrorCode) : string :=
  if (e =? ERR_NO_ERROR)%Z then "Success"
  else if (e =? ERR__QUEUE_FULL)%Z then "Local: Queue full"
  else if (e =? ERR_MSG_SIZE_TOO_LARGE)%Z then "Broker: Message size too large"
  else "Unknown error".

(** The library with a broker delivering [r] messages per blocking poll,
    a local queue of [cap] messages of at most [maxb] bytes, [backlog]
    being queued already when the producer is created. *)
Definition lib (r cap maxb : nat) (backlog : list string) : RdKafka :=
  {| Producer := producer;
     Topic := string;
     Conf_set := conf_set;
     Producer_create := fun _ => inl (mkProducer backlog cap maxb r);
     Topic_create := fun _ name _ =>
       if empty (c_str name) then inr "Invalid topic name" else inl name;
     outq_len := fun p => Z.of_nat (length (queue p));
     poll := sim_poll;
     produce := fun p _ _ _ payload => sim_produce p payload;
     err2str := sim_err2str;
     get_debug_contexts := "all,generic,broker,topic,metadata,queue,msg,protocol" |}.

(** The host: a log entry is its rendered fields; the tagged formatter
    wraps them under the stream path; a string without NUL is handed back
    as it is, any other replaced by a fixed text; the two fields the
    constructor leaves alone hold stray addresses. *)
Definition host : Host :=
  {| LogEntry := string;
     Describe := fun f entry =>
       match f with
       | TaggedJSON path _ => "{" ++ path ++ ": {" ++ entry ++ "}}"
       | JSON _ => "{" ++ entry ++ "}"
       end;
     FinishedRotation := true;
     CheckString := fun s =>
       if String.eqb (c_str s) s then s else "<string-with-NUL>";
     uninit_conf := Some 99%nat;
     uninit_topic_conf := Some 98%nat |}.

End Sim.

(** ** Concrete inputs *)

Module Scenario.

(** A broker that never delivers, with one message queued. *)
Definition stuck : RdKafka := Sim.lib 0 2 16 ["m1"].

(** A broker that delivers one message per blocking poll. *)
Definition draining : RdKafka := Sim.lib 1 2 16 ["m1"].

Definition conn : WriterInfo := {| path := "conn" |}.

Definition store (max_wait : Z) : BifConst.t :=
  BifConst.mk false "" [("bootstrap.servers", "x")] "" max_wait.

(** The shared store after another thread changed the tagging flag, the
    debug level and the wait bound. *)
Definition store_changed : BifConst.t :=
  BifConst.mk true "" [("bootstrap.servers", "x")] "all" 0.

(** A store whose table holds a property the library does not know. *)
Definition store_bad_key : BifConst.t :=
  BifConst.mk false "" [("bootstrap.servers", "x"); ("bogus.key", "1")] "" 2000.

(** No topic name and, with [no_path], no stream path either. *)
Definition no_path : WriterInfo := {| path := "" |}.

(** The state [DoInit] leaves. *)
Definition after_init {L : RdKafka} (bif0 bif : BifConst.t) (info : WriterInfo) : State :=
  match DoInit bif info (@constructed L Sim.host bif0) with
  | Ret _ s => s
  | _ => @constructed L Sim.host bif0
  end.

(** The backend on the stuck broker after a successful [DoInit], the
    store holding the wait bound [max_wait] throughout. *)
Definition ready_with (max_wait : Z) : @State stuck :=
  @after_init stuck (store max_wait) (store max_wait) conn.

Definition ready : @State stuck := ready_with 2000.

Definition ready_producer : Sim.producer := Sim.mkProducer ["m1"] 2 16 0.

(** A record whose serialisation holds a NUL byte. *)
Definition entry_with_NUL : string := "a" ++ String NUL "b".

(** A record whose serialisation exceeds the simulated size limit. *)
Definition entry_too_large : string := "0123456789abcdef".

(** Some calls between [DoInit] and [DoFinish]. *)
Definition calls : list (@Call Sim.host) :=
  [@CWrite Sim.host "a"; @CFlush Sim.host; @CHeartbeat Sim.host].

End Scenario.

(** ** Further vocabulary *)

(** Ascending keys, the order in which [std::map] iterates. *)
Definition key_lt (x y : string * string) : Prop :=
  String.compare (fst x) (fst y) = Lt.

(** The value found under [key]: that of the first entry with this key. *)
Fixpoint assoc (key : string) (l : list (string * string)) : option string :=
  match l with
  | [] => None
  | (k, v) :: l' => if String.eqb key k then Some v else assoc key l'
  end.

(** The error messages, and the polls that may wait. *)
Definition is_error (e : Event) : bool :=
  match e with MsgError _ => true | _ => false end.

Definition is_blocking_poll (e : Event) : bool :=
  match e with CallPoll timeout => negb (timeout =? 0)%Z | _ => false end.

Definition is_poll (e : Event) : bool :=
  match e with CallPoll _ => true | _ => false end.

(** The [debug] setting of lines 101-108, when there is one. *)
Definition debug_setting (bif : BifConst.t) : list (string * string) :=
  if empty (BifConst.debug bif) then [] else [("debug", BifConst.debug bif)].

(** The topic name after lines 62-64. *)
Definition resolved_topic (w : KafkaWriter) (info : WriterInfo) : string :=
  if empty (topic_name w) then path info else topic_name w.

Definition call_set (kv : string * string) : Event :=
  CallConfSet (fst kv) (snd kv).

(** The formatter of lines 67-71. *)
Definition chosen_formatter (bif : BifConst.t) (info : WriterInfo) : Formatter :=
  if BifConst.tag_json bif then TaggedJSON (path info) TS_EPOCH else JSON TS_EPOCH.

Section MoreVocabulary.
Context `{RdKafka} `{Host}.

(** A table entry as the constructor copies it (lines 46-47): key and
    value as [CheckString] returns them, read as C strings. *)
Definition c_pair (kv : string * string) : string * string :=
  (c_str (CheckString (fst kv)), c_str (CheckString (snd kv))).

(** One turn of the constructor's loop (line 48). *)
Definition ctor_step (m : std_map) (kv : string * string) : std_map :=
  map_insert (c_str (CheckString (fst kv))) (c_str (CheckString (snd kv))) m.

(** The notice of lines 77-82. *)
Definition debug_notice (bif : BifConst.t) : Event :=
  MsgInfo (if empty (BifConst.debug bif)
           then Fmt_debug_off
           else Fmt_debug_on (BifConst.debug bif) get_debug_contexts).

(** No object lives at or above the next address to be handed out. *)
Definition heap_wf (s : State) : Prop :=
  forall a, (brk s <= a)%nat -> heap s !! a = None.

(** What a call other than [DoFinish] returns. *)
Definition call_result (c : Call) : bool :=
  match c with
  | CRotate => FinishedRotation
  | _ => true
  end.

Definition is_write (c : Call) : bool :=
  match c with CWrite _ => true | _ => false end.

End MoreVocabulary.

(** ** Further concrete inputs *)

Module Runs.

(** A library that cannot create its producer. *)
Definition no_client : RdKafka :=
  {| Producer := Sim.producer;
     Topic := string;
     Conf_set := Sim.conf_set;
     Producer_create := fun _ => inr "Failed to create thread";
     Topic_create := fun _ name _ => inl name;
     outq_len := fun p => Z.of_nat (length (Sim.queue p));
     poll := Sim.sim_poll;
     produce := fun p _ _ _ payload => Sim.sim_produce p payload;
     err2str := Sim.sim_err2str;
     get_debug_contexts := "all" |}.

(** The same two table entries, delivered in either order. *)
Definition store_ab : BifConst.t :=
  BifConst.mk false "" [("a", "1"); ("b", "2")] "" 2000.
Definition store_ba : BifConst.t :=
  BifConst.mk false "" [("b", "2"); ("a", "1")] "" 2000.

(** A debug string that names no debug context. *)
Definition store_bad_debug : BifConst.t :=
  BifConst.mk false "" [("bootstrap.servers", "x")] "bogus" 2000.

(** The backend on the draining broker after a successful [DoInit]. *)
Definition ready_draining : @State Scenario.draining :=
  @Scenario.after_init Scenario.draining (Scenario.store 2000) (Scenario.store 2000)
    Scenario.conn.

Definition draining_producer : Sim.producer := Sim.mkProducer ["m1"] 2 16 1.

(** The backend on the stuck broker after a [DoInit] that failed at the
    topic handle. *)
Definition half_ready : @State Scenario.stuck :=
  @Scenario.after_init Scenario.stuck (Scenario.store 2000) (Scenario.store 2000)
    Scenario.no_path.

(** The ready backend after some calls, and after [DoFinish]. *)
Definition after_calls : @State Scenario.stuck :=
  match @do_calls Scenario.stuck Sim.host Scenario.calls Scenario.ready with
  | Ret _ s => s
  | _ => Scenario.ready
  end.

Definition finished : @State Scenario.stuck :=
  match @DoFinish Scenario.stuck 5 (Scenario.store 2000) after_calls with
  | Ret _ s => s
  | _ => after_calls
  end.




End Runs.

(** * Properties *)

Section Properties.
Context `{RdKafka} `{Host}.

(** *** C strings *)

Lemma substring_strlen (s : string) : substring 0 (strlen s) s = c_str s.
Proof.
  unfold strlen. induction s as [|c s IH]; simpl; [reflexivity|].
  destruct (Ascii.eqb c NUL); simpl; [reflexivity|]. now rewrite IH.
Qed.

Lemma c_str_no_NUL (s : string) : ~ occurs NUL (c_str s).
Proof.
  induction s as [|c s IH]; simpl; [tauto|].
  destruct (Ascii.eqb c NUL) eqn:E; simpl; [tauto|].
  intros [->|Hocc]; [|tauto]. now rewrite Ascii.eqb_refl in E.
Qed.

Lemma c_str_split (s : string) :
  occurs NUL s ->
  (exists post, s = c_str s ++ String NUL post) /\
  (String.length (c_str s) < String.length s)%nat.
Proof.
  induction s as [|c s IH]; simpl; [tauto|].
  destruct (Ascii.eqb c NUL) eqn:E; simpl.
  - apply Ascii.eqb_eq in E as ->. intros _. split; [now exists s|lia].
  - intros [->|Hocc]; [now rewrite Ascii.eqb_refl in E|].
    destruct (IH Hocc) as [[post Hpost] Hlen]. split; [|lia].
    exists post. change (String c s = String c (c_str s ++ String NUL post)).
    f_equal. exact Hpost.
Qed.

Lemma c_str_id (s : string) : ~ occurs NUL s -> c_str s = s.
Proof.
  induction s as [|c s IH]; simpl; [reflexivity|].
  intros Hno. destruct (Ascii.eqb c NUL) eqn:E.
  - apply Ascii.eqb_eq in E. tauto.
  - rewrite IH; tauto.
Qed.

Lemma c_str_idem (s : string) : c_str (c_str s) = c_str s.
Proof. apply c_str_id, c_str_no_NUL. Qed.

Lemma apply_settings_run (m : std_map) : forall a l w h b e,
  h !! a = Some (OConf (gconf l)) ->
  apply_settings (Some a) m (mkState w h b e) =
  Ret (forallb accepted m)
      (mkState w (<[a := OConf (gconf (l ++ applied m))]> h) b (e ++ loop_events m)).
Proof.
  induction m as [|[key val] m IH]; intros a l w h b e Hl; simpl.
  - rewrite !app_nil_r. rewrite insert_id by assumption. reflexivity.
  - unfold accepted; simpl.
    unfold mbind, M_bind, conf_set_or_fail, load_conf, load, mbind, M_bind; simpl.
    rewrite Hl; simpl.
    destruct (Conf_set CONF_GLOBAL key val) as [err|err|] eqn:E; simpl.
    + rewrite app_nil_r, insert_id, <- app_assoc by assumption. reflexivity.
    + rewrite app_nil_r, insert_id, <- app_assoc by assumption. reflexivity.
    + rewrite Hl; simpl. rewrite IH with (l := (l ++ [(key, val)])%list) by apply lookup_insert_eq.
      rewrite insert_insert_eq, <- !app_assoc. reflexivity.
Qed.

Ltac unfold_monad :=
  unfold mbind, M_bind, mret, M_ret, get_this, modify, new, Info, Error, emit,
    conf_set_or_fail, load_conf, load_producer, load_topic, load_formatter,
    load, store, cxx_delete, undefined, mbind, M_bind in *.

(** Runs [DoInit] on an explicit state, splitting on every answer of the
    library. *)
Ltac run_init :=
  unfold DoInit; unfold_monad; simpl;
  repeat first
    [ rewrite apply_settings_run with (l := []) by apply lookup_insert_eq
    | rewrite lookup_insert_eq
    | rewrite insert_insert_eq
    | progress simpl
    | match goal with
      | |- context [empty ?x] => destruct (empty x) eqn:?
      | |- context [forallb accepted ?m] => destruct (forallb accepted m) eqn:?
      | |- context [Conf_set ?t ?k ?v] => destruct (Conf_set t k v) eqn:?
      | |- context [Producer_create ?c] => destruct (Producer_create c) eqn:?
      | |- context [Topic_create ?p ?n ?c] => destruct (Topic_create p n c) eqn:?
      end ].

Lemma loop_events_no_create (m : std_map) (e : Event) :
  In e (loop_events m) -> is_create e = false.
Proof.
  induction m as [|[key val] m IH]; simpl; [tauto|].
  intros [<-|Hin]; [reflexivity|].
  destruct (Conf_set CONF_GLOBAL key val); auto;
    destruct Hin as [<-|[]]; reflexivity.
Qed.

(** Brings the event list of a final state to the form [old ++ new] and
    identifies the appended events with [new]. *)
Ltac name_appended Happ :=
  unfold appended in Happ; simpl in Happ;
  repeat rewrite <- app_assoc in Happ;
  apply app_inv_head in Happ; subst.

Ltac in_events Hin :=
  simpl in Hin;
  repeat first
    [ apply in_app_or in Hin; destruct Hin as [Hin|Hin]
    | destruct Hin as [Hin|Hin]; [try discriminate Hin; try (inversion Hin; subst; clear Hin)|]
    | destruct Hin as [] ];
  try (apply loop_events_no_create in Hin; simpl in Hin; try discriminate Hin).

(** [DoInit] always returns. *)
Lemma DoInit_returns (bif : BifConst.t) (info : WriterInfo) (s : State) :
  exists r s', DoInit bif info s = Ret r s'.
Proof.
  destruct s as [w h b e]. run_init.
  all: eauto.
Qed.

(** The constructor's snapshot, and what [DoInit] does not take from it:
    the formatter follows the tagging flag of the shared store as it is
    when [DoInit] runs. *)
Lemma constructor_snapshot (bif : BifConst.t) :
  tag_json (KafkaWriter_new bif) = BifConst.tag_json bif /\
  topic_name (KafkaWriter_new bif) = BifConst.topic_name bif.
Proof. split; reflexivity. Qed.

Lemma init_formatter_from_shared_store (bif : BifConst.t) (info : WriterInfo) (s : State) :
  exists r s',
    DoInit bif info s = Ret r s' /\
    live_formatter s' (brk s)
      (if BifConst.tag_json bif then TaggedJSON (path info) TS_EPOCH else JSON TS_EPOCH).
Proof.
  destruct s as [w h b e]. run_init.
  all: eexists _, _; split; [reflexivity|].
  all: split; [reflexivity|].
  all: simpl; repeat first [ rewrite lookup_insert_eq | rewrite lookup_insert_ne by lia ].
  all: reflexivity.
Qed.

(** C7: [DoInit] replaces an empty topic name by the stream path and
    leaves a non-empty one unchanged; the topic handle, when one is
    requested, is requested under the resolved name.  With an empty
    snapshotted topic name and the stream path "conn" the resolved topic
    is "conn". *)
Theorem init_resolves_topic_name :
  (forall (bif : BifConst.t) (info : WriterInfo) (s : State),
     exists r s',
       DoInit bif info s = Ret r s' /\
       topic_name (this s') =
         (if empty (topic_name (this s)) then path info else topic_name (this s)) /\
       forall evs name,
         appended s s' evs -> In (CallTopicCreate name) evs ->
         name = topic_name (this s')) /\
  (forall (bif : BifConst.t) tj kc dbg mw,
     let bif0 := BifConst.mk tj "" kc dbg mw in
     exists r s',
       DoInit bif {| path := "conn" |} (constructed bif0) = Ret r s' /\
       topic_name (this s') = "conn").
Proof.
  assert (G : forall bif info s, exists r s',
       DoInit bif info s = Ret r s' /\
       topic_name (this s') =
         (if empty (topic_name (this s)) then path info else topic_name (this s)) /\
       forall evs name,
         appended s s' evs -> In (CallTopicCreate name) evs ->
         name = topic_name (this s')).
  { intros bif info [w h b e]. run_init.
    all: eexists _, _; split; [reflexivity|]; split; [reflexivity|].
    all: intros evs name Happ Hin; name_appended Happ; in_events Hin.
    all: reflexivity. }
  split; [exact G|].
  intros bif tj kc dbg mw bif0.
  destruct (G bif {| path := "conn" |} (constructed bif0)) as (r & s' & Hrun & Hname & _).
  exists r, s'. split; [exact Hrun|]. exact Hname.
Qed.

Lemma loop_events_existsb_create (m : std_map) :
  existsb is_create (loop_events m) = false.
Proof.
  induction m as [|[key val] m IH]; simpl; [reflexivity|].
  destruct (Conf_set CONF_GLOBAL key val); auto.
Qed.

Lemma accepted_rejection (key val : string) :
  accepted (key, val) = false <-> exists err, rejection key val = Some err.
Proof.
  unfold accepted, rejection; simpl.
  destruct (Conf_set CONF_GLOBAL key val); split; intros Hx;
    eauto; try discriminate; destruct Hx; discriminate.
Qed.

Lemma rejected_in_map (m : std_map) (key val err : string) :
  In (key, val) m -> rejection key val = Some err -> forallb accepted m = false.
Proof.
  intros Hin Hrej. destruct (forallb accepted m) eqn:Hall; [|reflexivity].
  rewrite forallb_forall in Hall. apply Hall in Hin.
  assert (Hf : accepted (key, val) = false) by (apply accepted_rejection; eauto).
  congruence.
Qed.

(** The loop stops at the first rejected setting in key order. *)
Lemma first_rejected (m : std_map) :
  forallb accepted m = false ->
  exists pre key val post err,
    m = (pre ++ (key, val) :: post)%list /\
    forallb accepted pre = true /\
    rejection key val = Some err /\
    applied m = pre /\
    exists evs,
      loop_events m = (evs ++ [MsgError (Fmt_failed_to_set key val err)])%list /\
      existsb is_create evs = false.
Proof.
  induction m as [|[key val] m IH]; simpl; [discriminate|].
  change (accepted (key, val))
    with (match Conf_set CONF_GLOBAL key val with CONF_OK => true | _ => false end).
  unfold rejection.
  destruct (Conf_set CONF_GLOBAL key val) as [err|err|] eqn:E; simpl; intros Hall.
  - exists [], key, val, m, err. rewrite E.
    do 4 (split; [reflexivity|]).
    exists [CallConfSet key val]. split; reflexivity.
  - exists [], key, val, m, err. rewrite E.
    do 4 (split; [reflexivity|]).
    exists [CallConfSet key val]. split; reflexivity.
  - destruct (IH Hall) as (pre & k & v & post & err & -> & Hpre & Hrej & Happ & evs & Hev & Hnc).
    exists ((key, val) :: pre), k, v, post, err. simpl.
    change (accepted (key, val))
      with (match Conf_set CONF_GLOBAL key val with CONF_OK => true | _ => false end).
    rewrite E, Hpre.
    split; [reflexivity|]. split; [reflexivity|]. split; [assumption|].
    split; [now rewrite Happ|].
    exists (CallConfSet key val :: evs). rewrite Hev. split; [reflexivity|exact Hnc].
Qed.

Lemma lookup_two_inserts (h : gmap nat Object) (a1 a2 a : nat) (o1 o2 : Object) :
  <[a1 := o1]> (<[a2 := o2]> h) !! a = h !! a \/
  <[a1 := o1]> (<[a2 := o2]> h) !! a = Some o1 \/
  <[a1 := o1]> (<[a2 := o2]> h) !! a = Some o2.
Proof.
  destruct (decide (a1 = a)) as [->|Hne1].
  - right; left. apply lookup_insert_eq.
  - rewrite lookup_insert_ne by assumption.
    destruct (decide (a2 = a)) as [->|Hne2].
    + right; right. apply lookup_insert_eq.
    + left. now rewrite lookup_insert_ne.
Qed.

Lemma in_map_insert (kv : string * string) (key val : string) (m : std_map) :
  In kv (map_insert key val m) -> kv = (key, val) \/ In kv m.
Proof.
  induction m as [|[k v] m IH]; simpl.
  - intros [<-|[]]. now left.
  - destruct (String.compare key k); simpl.
    + tauto.
    + intros [<-|Hin]; [now left|tauto].
    + intros [<-|Hin]; [tauto|]. destruct (IH Hin); tauto.
Qed.

(** The keys and values of the instance's map were built from C strings:
    they hold no NUL, and [%s] prints them in full. *)
Lemma constructed_map_c_strings (bif : BifConst.t) (key val : string) :
  In (key, val) (kafka_conf (KafkaWriter_new bif)) ->
  c_str key = key /\ c_str val = val.
Proof.
  unfold KafkaWriter_new; simpl.
  assert (G : forall l m,
    (forall k v, In (k, v) m -> c_str k = k /\ c_str v = v) ->
    forall k v,
      In (k, v) (fold_left (fun m kv => map_insert (c_str (CheckString (fst kv)))
                                                   (c_str (CheckString (snd kv))) m) l m) ->
      c_str k = k /\ c_str v = v).
  { induction l as [|[k0 v0] l IH]; intros m Hm k v; simpl; [apply Hm|].
    apply IH. intros k' v' Hin. apply in_map_insert in Hin as [Heq|Hin]; [|now apply Hm].
    inversion Heq; subst. split; apply c_str_idem. }
  apply G. intros k v [].
Qed.

(** C2: when the instance's broker parameter map holds a setting the
    global configuration object rejects, [DoInit] returns [false]; its
    last message is the error with the text
    [Failed to set 'key'='value': reason] for the first rejected setting
    in key order; no producer and no topic
    handle is requested from the library, the two handle fields keep their
    value ([NULL] after construction) and the heap gains only the
    formatter and the configuration object.  On a freshly constructed
    backend the key and the value appear in the message in full. *)
Theorem init_rejected_setting (bif : BifConst.t) (info : WriterInfo) (s : State) :
  (exists key val err,
     In (key, val) (kafka_conf (this s)) /\ rejection key val = Some err) ->
  exists s' pre key val post err evs,
    DoInit bif info s = Ret false s' /\
    kafka_conf (this s) = (pre ++ (key, val) :: post)%list /\
    forallb accepted pre = true /\
    rejection key val = Some err /\
    appended s s'
      (evs ++ [MsgError ("Failed to set '" ++ c_str key ++ "'='" ++ c_str val
                         ++ "': " ++ c_str err)%string]) /\
    existsb is_create evs = false /\
    producer (this s') = producer (this s) /\
    topic (this s') = topic (this s) /\
    (forall a, heap s' !! a = heap s !! a \/
               (exists f, heap s' !! a = Some (OFormatter f)) \/
               (exists c, heap s' !! a = Some (OConf c))) /\
    (forall bif0, s = constructed bif0 ->
       producer (this s') = NULL /\ topic (this s') = NULL /\
       c_str key = key /\ c_str val = val /\
       appended s s'
         (evs ++ [MsgError ("Failed to set '" ++ key ++ "'='" ++ val
                            ++ "': " ++ c_str err)%string])).
Proof.
  intros (key0 & val0 & err0 & Hin & Hrej0).
  pose proof (rejected_in_map _ _ _ _ Hin Hrej0) as Hall.
  destruct (first_rejected _ Hall)
    as (pre & key & val & post & err & Hsplit & Hpre & Hrej & Happ & evs & Hev & Hnc).
  destruct s as [w h b e]; simpl in *.
  assert (Hcs : forall bif0, w = KafkaWriter_new bif0 ->
                             c_str key = key /\ c_str val = val).
  { intros bif0 ->. apply (constructed_map_c_strings bif0).
    rewrite Hsplit. apply in_or_app. right. now left. }
  run_init; try congruence.
  all: eexists _, pre, key, val, post, err, (_ :: evs).
  all: split; [reflexivity|].
  all: repeat (split; [assumption|]).
  all: unfold Fmt_failed_to_set in Hev.
  all: split; [unfold appended; simpl; rewrite Hev, <- !app_assoc; reflexivity|].
  all: split; [simpl; exact Hnc|].
  all: split; [reflexivity|]; split; [reflexivity|]; split.
  all: try (intros a; simpl;
            destruct (lookup_two_inserts h (S b) b a (OConf (gconf (applied (kafka_conf w))))
                        (OFormatter (if BifConst.tag_json bif
                                     then TaggedJSON (path info) TS_EPOCH
                                     else JSON TS_EPOCH))) as [Hl|[Hl|Hl]];
            rewrite Hl; eauto).
  all: intros bif0 Hs; injection Hs as Hw Hh Hb He; simpl.
  all: split; [now rewrite Hw|]; split; [now rewrite Hw|].
  all: destruct (Hcs bif0 Hw) as [Hk Hv].
  all: split; [exact Hk|]; split; [exact Hv|].
  all: unfold appended; simpl; rewrite Hev, <- !app_assoc, Hk, Hv; reflexivity.
Qed.

(** *** Runs of the calls on an operational backend *)

Lemma producer_poll_run (timeout : Z) (s : State) (ap : nat) (p : Producer) :
  live_producer s ap p ->
  producer_poll timeout s =
  Ret tt (mkState (this s) (<[ap := OProducer (poll p timeout)]> (heap s)) (brk s)
                  (events s ++ [CallPoll timeout])).
Proof.
  intros [Hp Hh]. unfold producer_poll. unfold_monad. simpl.
  rewrite Hp, Hh. simpl. rewrite Hh. reflexivity.
Qed.

Lemma producer_outq_len_run (s : State) (ap : nat) (p : Producer) :
  live_producer s ap p -> producer_outq_len s = Ret (outq_len p) s.
Proof.
  intros [Hp Hh]. unfold producer_outq_len. unfold_monad. simpl.
  rewrite Hp, Hh. reflexivity.
Qed.

(** Objects of different kinds live at different addresses. *)
Lemma live_distinct (s : State) af f ap p at_ t :
  live_formatter s af f -> live_producer s ap p -> live_topic s at_ t ->
  af <> ap /\ at_ <> ap /\ af <> at_.
Proof.
  intros [_ Hf] [_ Hp] [_ Ht]. repeat split; intros ->; congruence.
Qed.

Lemma DoWrite_run (entry : LogEntry) (s : State) af f ap p at_ t :
  live_formatter s af f -> live_producer s ap p -> live_topic s at_ t ->
  DoWrite entry s =
  Ret true (write_post s ap p t
              (substring 0 (strlen (Describe f entry)) (Describe f entry))).
Proof.
  intros [Hf Hhf] [Hp Hhp] [Ht Hht]. destruct s as [w h b e]; simpl in *.
  unfold DoWrite, write_post, producer_poll. unfold_monad. simpl.
  rewrite Hf, Hhf; simpl. rewrite Hp, Hhp; simpl. rewrite Ht, Hht; simpl.
  destruct (produce p t PARTITION_UA RK_MSG_COPY _) as [resp p']; simpl.
  rewrite Hhp; simpl.
  destruct (resp =? ERR_NO_ERROR)%Z; simpl.
  - rewrite Hp; simpl.
    repeat (rewrite ?lookup_insert_eq, ?insert_insert_eq, <- ?app_assoc; simpl).
    reflexivity.
  - rewrite <- app_assoc. reflexivity.
Qed.

Lemma DoFlush_run (s : State) (ap : nat) (p : Producer) :
  live_producer s ap p ->
  DoFlush s =
  Ret true (mkState (this s) (<[ap := OProducer (poll p 0)]> (heap s)) (brk s)
                    (events s ++ [CallPoll 0])).
Proof.
  intros Hl. unfold DoFlush, mbind, M_bind. now rewrite (producer_poll_run _ _ _ _ Hl).
Qed.

Lemma DoHeartbeat_run (s : State) (ap : nat) (p : Producer) :
  live_producer s ap p ->
  DoHeartbeat s =
  Ret true (mkState (this s) (<[ap := OProducer (poll p 0)]> (heap s)) (brk s)
                    (events s ++ [CallPoll 0])).
Proof.
  intros Hl. unfold DoHeartbeat, mbind, M_bind. now rewrite (producer_poll_run _ _ _ _ Hl).
Qed.

(** Replacing the producer object in place keeps the backend operational
    with the same handles. *)
Lemma operational_update_producer (s : State) (ap : nat) (p p' : Producer)
    (evs : list Event) :
  Operational s -> live_producer s ap p ->
  Operational (mkState (this s) (<[ap := OProducer p']> (heap s)) (brk s) evs).
Proof.
  intros (af & f & ap0 & p0 & at_ & t & Hf & Hp0 & Ht) Hp.
  assert (ap0 = ap) as -> by (destruct Hp0, Hp; congruence).
  destruct (live_distinct _ _ _ _ _ _ _ Hf Hp Ht) as (Hfp & Htp & _).
  destruct Hf as [Hf Hhf], Hp as [Hp Hhp], Ht as [Ht Hht].
  exists af, f, ap, p', at_, t.
  unfold live_formatter, live_producer, live_topic; simpl.
  rewrite lookup_insert_eq, !lookup_insert_ne by congruence. tauto.
Qed.

(** Every call but [DoFinish] is carried out on an operational backend
    and leaves it operational, with the same handle fields. *)
Lemma do_call_operational (c : Call) (s : State) :
  Operational s ->
  exists r s', do_call c s = Ret r s' /\ Operational s' /\ this s' = this s.
Proof.
  intros Hop. pose proof Hop as (af & f & ap & p & at_ & t & Hf & Hp & Ht).
  destruct c as [entry|enabled| | |]; simpl.
  - rewrite (DoWrite_run entry s _ _ _ _ _ _ Hf Hp Ht). unfold write_post.
    destruct (produce p t _ _ _) as [resp p'].
    eexists _, _; split; [reflexivity|]. split; [|reflexivity].
    now apply operational_update_producer with (p := p).
  - exists true, s. repeat split. exact Hop.
  - rewrite (DoFlush_run s _ _ Hp).
    eexists _, _; split; [reflexivity|]. split; [|reflexivity].
    now apply operational_update_producer with (p := p).
  - eexists _, _; split; [reflexivity|]. split; [|reflexivity].
    exists af, f, ap, p, at_, t. tauto.
  - rewrite (DoHeartbeat_run s _ _ Hp).
    eexists _, _; split; [reflexivity|]. split; [|reflexivity].
    now apply operational_update_producer with (p := p).
Qed.

Lemma do_calls_operational (cs : list Call) : forall s,
  Operational s ->
  exists rs s',
    do_calls cs s = Ret rs s' /\ Operational s' /\ this s' = this s.
Proof.
  induction cs as [|c cs IH]; intros s Hop; simpl.
  - exists [], s. repeat split. assumption.
  - destruct (do_call_operational c s Hop) as (r & s1 & Hc & Hop1 & Hthis1).
    destruct (IH s1 Hop1) as (rs & s2 & Hcs & Hop2 & Hthis2).
    exists (r :: rs), s2. unfold mbind, M_bind. rewrite Hc, Hcs.
    repeat split; [assumption|congruence].
Qed.

Ltac solve_lookup :=
  simpl;
  repeat first [ rewrite lookup_insert_eq | rewrite lookup_insert_ne by lia ];
  try reflexivity.

(** C6: when [DoInit] returns [true], the producer and topic fields are
    non-null and point to live objects (the backend is operational), and
    they stay so, unchanged, through every later call of write, flush,
    heartbeat, rotate and set-buffering, each of which is carried out. *)
Theorem init_success_operational (bif : BifConst.t) (info : WriterInfo) (s s' : State) :
  DoInit bif info s = Ret true s' ->
  producer (this s') <> NULL /\ topic (this s') <> NULL /\
  Operational s' /\
  forall cs : list Call,
    exists rs s'',
      do_calls cs s' = Ret rs s'' /\
      Operational s'' /\
      producer (this s'') = producer (this s') /\
      topic (this s'') = topic (this s').
Proof.
  intros Hrun.
  assert (Hop : producer (this s') <> NULL /\ topic (this s') <> NULL /\ Operational s').
  { destruct s as [w h b e]. revert Hrun. run_init; intros Hrun; inversion Hrun; subst; simpl.
    all: split; [discriminate|]; split; [discriminate|].
    all: eexists b, _, (S (S b)), _, (S (S (S (S b)))), _.
    all: unfold live_formatter, live_producer, live_topic; simpl.
    all: repeat split; solve_lookup. }
  destruct Hop as (Hp & Ht & Hop). repeat split; try assumption.
  intros cs. destruct (do_calls_operational cs s' Hop) as (rs & s'' & Hcs & Hop' & Hthis).
  exists rs, s''. rewrite Hthis. tauto.
Qed.

(** C10: [DoInit] undoes nothing when it fails.  When the library
    creates the producer but refuses the topic handle, [DoInit] returns
    [false] with the producer field non-null and its object live, the
    topic field [NULL] and the refusal reported; and on every failing path
    the formatter allocated at the start is still live. *)
Theorem init_failure_keeps_partial_state (bif : BifConst.t) (info : WriterInfo) (s : State) :
  exists r s',
    DoInit bif info s = Ret r s' /\
    (r = false -> exists af f, live_formatter s' af f) /\
    forall evs cf p err,
      appended s s' evs ->
      In (CallProducerCreate cf) evs ->
      Producer_create cf = inl p ->
      Topic_create p (topic_name (this s')) tconf_empty = inr err ->
      r = false /\
      (exists ap, live_producer s' ap p) /\
      topic (this s') = NULL /\
      exists evs', evs = (evs' ++ [MsgError (Fmt_failed_topic err)])%list.
Proof.
  destruct s as [w h b e]. run_init.
  all: eexists _, _; split; [reflexivity|]; split.
  all: try (intros _; exists b; eexists; split; solve_lookup).
  all: intros evs cf p' err Happ Hin Hpc Htc; name_appended Happ; in_events Hin.
  all: simpl in Htc; try congruence.
  all: assert (p' = p) as -> by congruence.
  all: try congruence.
  all: assert (err = s) as -> by congruence.
  all: split; [reflexivity|]; split; [exists (S (S b)); split; solve_lookup|].
  all: split; [reflexivity|].
  all: rewrite !app_assoc; eexists; reflexivity.
Qed.


(** C4: when the library refuses a submission, [DoWrite] reports the
    refusal, with the text [Kafka send failed: ] followed by the library's
    text for the error code, and returns [true];
    it does not poll; the backend stays operational with the same handles,
    so every later [DoWrite] is carried out and returns [true] as well, and
    one whose submission the library accepts is followed by its poll. *)
Theorem write_rejection_not_fatal (s : State) (entry : LogEntry)
    af f ap p at_ t (resp : ErrorCode) (p' : Producer) :
  live_formatter s af f -> live_producer s ap p -> live_topic s at_ t ->
  produce p t PARTITION_UA RK_MSG_COPY (c_str (Describe f entry)) = (resp, p') ->
  resp <> ERR_NO_ERROR ->
  exists s',
    DoWrite entry s = Ret true s' /\
    appended s s' [CallProduce PARTITION_UA RK_MSG_COPY (c_str (Describe f entry));
                   MsgError ("Kafka send failed: " ++ c_str (err2str resp))%string] /\
    this s' = this s /\
    Operational s' /\ live_producer s' ap p' /\
    forall entry' : LogEntry,
      exists s'',
        DoWrite entry' s' = Ret true s'' /\
        forall p'',
          produce p' t PARTITION_UA RK_MSG_COPY (c_str (Describe f entry'))
            = (ERR_NO_ERROR, p'') ->
          appended s' s'' [CallProduce PARTITION_UA RK_MSG_COPY (c_str (Describe f entry'));
                           CallPoll 0] /\
          live_producer s'' ap (poll p'' 0).
Proof.
  intros Hf Hp Ht Hprod Hresp.
  assert (Hop : Operational s) by (exists af, f, ap, p, at_, t; tauto).
  rewrite (DoWrite_run entry s _ _ _ _ _ _ Hf Hp Ht), substring_strlen.
  unfold write_post. rewrite Hprod.
  apply Z.eqb_neq in Hresp. rewrite Hresp.
  eexists; split; [reflexivity|].
  split; [reflexivity|]. split; [reflexivity|].
  match goal with |- Operational ?x /\ _ => set (s1 := x) end.
  assert (Hf1 : live_formatter s1 af f /\ live_producer s1 ap p' /\ live_topic s1 at_ t).
  { destruct (live_distinct _ _ _ _ _ _ _ Hf Hp Ht) as (Hfp & Htp & _).
    destruct Hf as [Hf Hhf], Hp as [Hp Hhp], Ht as [Ht Hht].
    unfold live_formatter, live_producer, live_topic, s1; simpl.
    rewrite lookup_insert_eq, !lookup_insert_ne by congruence. tauto. }
  destruct Hf1 as (Hf1 & Hp1 & Ht1).
  split; [exists af, f, ap, p', at_, t; tauto|]. split; [exact Hp1|].
  intros entry'.
  rewrite (DoWrite_run entry' s1 _ _ _ _ _ _ Hf1 Hp1 Ht1), substring_strlen.
  eexists; split; [reflexivity|].
  intros p'' Hprod'. unfold write_post. rewrite Hprod'. simpl.
  split; [reflexivity|]. destruct Hp1 as [Hp1 _]. split; [exact Hp1|].
  simpl. apply lookup_insert_eq.
Qed.

(** C9: the length [DoWrite] passes to the library is [strlen] of the
    buffer, so a serialised record holding a NUL byte is submitted only up
    to its first NUL: the payload is the NUL-free prefix, strictly shorter
    than the buffer, and nothing else is submitted. *)
Theorem write_truncates_at_NUL (s : State) (entry : LogEntry) af f ap p at_ t :
  live_formatter s af f -> live_producer s ap p -> live_topic s at_ t ->
  occurs NUL (Describe f entry) ->
  exists pre post s' rest,
    Describe f entry = pre ++ String NUL post /\
    ~ occurs NUL pre /\
    (String.length pre < String.length (Describe f entry))%nat /\
    DoWrite entry s = Ret true s' /\
    appended s s' (CallProduce PARTITION_UA RK_MSG_COPY pre :: rest) /\
    existsb is_produce rest = false.
Proof.
  intros Hf Hp Ht Hocc.
  destruct (c_str_split _ Hocc) as [[post Hpost] Hlen].
  rewrite (DoWrite_run entry s _ _ _ _ _ _ Hf Hp Ht), substring_strlen.
  unfold write_post.
  destruct (produce p t _ _ _) as [resp p'].
  exists (c_str (Describe f entry)), post. eexists. eexists.
  split; [exact Hpost|]. split; [apply c_str_no_NUL|]. split; [exact Hlen|].
  split; [reflexivity|]. split; [reflexivity|].
  destruct (resp =? ERR_NO_ERROR)%Z; reflexivity.
Qed.

(** *** The drain loop *)

Lemma to_int_range (z : Z) : in_int (to_int z).
Proof.
  unfold in_int, to_int, INT_MIN, INT_MAX.
  pose proof (Z.mod_pos_bound (z + 2 ^ 31) (2 ^ 32) ltac:(lia)). lia.
Qed.

Lemma to_int_id (z : Z) : in_int z -> to_int z = z.
Proof.
  unfold in_int, to_int, INT_MIN, INT_MAX. intros Hz.
  rewrite Z.mod_small by lia. lia.
Qed.

Lemma exits_at_succ (p : Producer) (w mw : Z) (n : nat) :
  exits_at p w mw (S n) ->
  loop_cond (outq_len p) w mw = true /\
  exits_at (poll p 1000) (int_add w 1000) mw n.
Proof.
  intros [Hout Hin]. split; [apply (Hin O); lia|].
  split; [exact Hout|]. intros i Hi. apply (Hin (S i)). lia.
Qed.

(** One evaluation of the loop condition, and one turn when it holds. *)
Lemma drain_step (fuel : nat) (w mw : Z) (s : State) (ap : nat) (p : Producer) :
  live_producer s ap p ->
  drain (S fuel) 1000 w mw s =
  if loop_cond (outq_len p) w mw
  then drain fuel 1000 (int_add w 1000) mw
         (mkState (this s) (<[ap := OProducer (poll p 1000)]> (heap s)) (brk s)
                  (events s ++ [CallPoll 1000]))
  else Ret w s.
Proof.
  intros Hl. simpl. unfold mbind, M_bind.
  rewrite (producer_outq_len_run _ _ _ Hl). unfold loop_cond.
  destruct ((0 <? outq_len p)%Z && (w <=? mw)%Z); [|reflexivity].
  now rewrite (producer_poll_run _ _ _ _ Hl).
Qed.

Lemma drain_run (wr : KafkaWriter) (b ap : nat) (mw : Z) (n : nat) :
  forall fuel w p h e,
    producer wr = Some ap -> h !! ap = Some (OProducer p) ->
    exits_at p w mw n -> (n < fuel)%nat ->
    drain fuel 1000 w mw (mkState wr h b e) =
    Ret (waited_from w n 1000)
        (mkState wr (<[ap := OProducer (polls n 1000 p)]> h) b
                 (e ++ repeat (CallPoll 1000) n)).
Proof.
  induction n as [|n IH]; intros fuel w p h e Hp Hh Hex Hfuel;
    (destruct fuel as [|fuel]; [lia|]);
    rewrite (drain_step _ _ _ _ ap p) by (split; assumption); simpl.
  - destruct Hex as [Hout _]. simpl in Hout. rewrite Hout.
    now rewrite insert_id, app_nil_r.
  - apply exits_at_succ in Hex as [Hc Hex]. rewrite Hc.
    rewrite (IH fuel _ (poll p 1000)); [|exact Hp|apply lookup_insert_eq|exact Hex|lia].
    now rewrite insert_insert_eq, <- app_assoc.
Qed.

(** A loop that returns left after some number of polls. *)
Lemma drain_returns (wr : KafkaWriter) (b ap : nat) (mw : Z) (fuel : nat) :
  forall w p h e x s',
    producer wr = Some ap -> h !! ap = Some (OProducer p) ->
    drain fuel 1000 w mw (mkState wr h b e) = Ret x s' ->
    exists n, (n < fuel)%nat /\ exits_at p w mw n.
Proof.
  induction fuel as [|fuel IH]; intros w p h e x s' Hp Hh; [discriminate|].
  rewrite (drain_step _ _ _ _ ap p) by (split; assumption); simpl.
  destruct (loop_cond (outq_len p) w mw) eqn:Hc.
  - intros Hrun.
    apply IH with (p := poll p 1000) in Hrun; [|exact Hp|apply lookup_insert_eq].
    destruct Hrun as (n & Hn & Hout & Hin). exists (S n). split; [lia|].
    split; [exact Hout|]. intros [|i] Hi; [exact Hc|]. apply Hin. lia.
  - intros _. exists O. split; [lia|]. split; [exact Hc|]. intros i Hi. lia.
Qed.

(** With the bound at [INT_MAX] the counter never exceeds it: a queue
    that stays non-empty keeps the loop going, whatever the fuel. *)
Lemma drain_stuck (wr : KafkaWriter) (b ap : nat) (fuel : nat) :
  forall w p h e,
    producer wr = Some ap -> h !! ap = Some (OProducer p) ->
    (forall n, 0 < outq_len (polls n 1000 p)) ->
    w <= INT_MAX ->
    drain fuel 1000 w INT_MAX (mkState wr h b e) = OutOfFuel.
Proof.
  induction fuel as [|fuel IH]; intros w p h e Hp Hh Hstuck Hw; [reflexivity|].
  rewrite (drain_step _ _ _ _ ap p) by (split; assumption); simpl.
  pose proof (Hstuck O) as Hq. simpl in Hq. unfold loop_cond.
  apply Z.ltb_lt in Hq. apply Z.leb_le in Hw. rewrite Hq, Hw. simpl.
  apply IH with (p := poll p 1000); [exact Hp|apply lookup_insert_eq| |].
  - intros n. apply (Hstuck (S n)).
  - apply to_int_range.
Qed.

Lemma first_false (P : nat -> bool) (N : nat) :
  P N = false ->
  exists n, (n <= N)%nat /\ P n = false /\ forall i, (i < n)%nat -> P i = true.
Proof.
  induction N as [|N IH] in P |- *; intros HN.
  - exists O. repeat split; [lia|exact HN|]. intros i Hi. lia.
  - destruct (P O) eqn:HP0.
    + destruct (IH (fun i => P (S i)) HN) as (n & Hn & Hf & Hlt).
      exists (S n). repeat split; [lia|exact Hf|].
      intros [|i] Hi; [exact HP0|]. apply Hlt. lia.
    + exists O. repeat split; [lia|exact HP0|]. intros i Hi. lia.
Qed.

Lemma waited_from_no_overflow (n : nat) : forall w,
  INT_MIN <= w -> 0 <= w + 1000 * Z.of_nat n <= INT_MAX ->
  waited_from w n 1000 = w + 1000 * Z.of_nat n.
Proof.
  induction n as [|n IH]; intros w Hlo Hhi; simpl waited_from; [lia|].
  unfold int_add. rewrite to_int_id by (unfold in_int, INT_MIN, INT_MAX in *; lia).
  rewrite IH; unfold INT_MIN, INT_MAX in *; lia.
Qed.

(** Away from the top of the [int] range the loop leaves after at most
    [max_wait / 1000 + 1] polls, whatever the broker does. *)
Lemma drain_exits_without_overflow (p : Producer) (mw : Z) :
  mw <= INT_MAX - 1000 ->
  exists n, Z.of_nat n <= Z.max 0 (mw / 1000 + 1) /\ exits_at p 0 mw n.
Proof.
  intros Hmw.
  set (N := Z.to_nat (Z.max 0 (mw / 1000 + 1))).
  set (P := fun i => loop_cond (outq_len (polls i 1000 p)) (waited_from 0 i 1000) mw).
  assert (HN : P N = false).
  { unfold P, loop_cond.
    assert (Hdiv : mw < 1000 * (mw / 1000 + 1)).
    { pose proof (Z.mod_pos_bound mw 1000 ltac:(lia)).
      pose proof (Z.div_mod mw 1000 ltac:(lia)). lia. }
    assert (Hdiv' : 1000 * (mw / 1000) <= mw).
    { pose proof (Z.mod_pos_bound mw 1000 ltac:(lia)).
      pose proof (Z.div_mod mw 1000 ltac:(lia)). lia. }
    rewrite waited_from_no_overflow; unfold INT_MIN, INT_MAX in *; [|lia|unfold N; lia].
    apply andb_false_iff. right. apply Z.leb_gt. unfold N. lia. }
  destruct (first_false P N HN) as (n & Hn & Hf & Hlt).
  exists n. split; [unfold N in Hn; lia|]. split; assumption.
Qed.

(** *** DoFinish *)

Lemma DoFinish_run (fuel : nat) (bif : BifConst.t) (s : State) af f ap p at_ t (n : nat) :
  live_formatter s af f -> live_producer s ap p -> live_topic s at_ t ->
  exits_at p 0 (to_int (BifConst.max_wait_on_shutdown bif)) n -> (n < fuel)%nat ->
  let q := outq_len (polls n 1000 p) in
  DoFinish fuel bif s =
  Ret (q =? 0)%Z
      (mkState (this s)
         (base.delete af (base.delete ap (base.delete at_
            (<[ap := OProducer (polls n 1000 p)]> (heap s)))))
         (brk s)
         (events s ++ repeat (CallPoll 1000) n ++
            (if (q =? 0)%Z then [] else [MsgError (Fmt_unable_to_deliver q)]))).
Proof.
  intros Hf Hp Ht Hex Hfuel q.
  destruct (live_distinct _ _ _ _ _ _ _ Hf Hp Ht) as (Hfp & Htp & Hft).
  destruct Hf as [Hf Hhf], Hp as [Hp Hhp], Ht as [Ht Hht].
  destruct s as [w h b e]; simpl in *.
  unfold DoFinish, mbind, M_bind.
  rewrite (drain_run w b ap _ n fuel 0 p h e Hp Hhp Hex Hfuel).
  rewrite (producer_outq_len_run _ ap (polls n 1000 p))
    by (split; [exact Hp|apply lookup_insert_eq]).
  fold q.
  assert (Hdel : forall evs,
    (w0 ← get_this; cxx_delete (topic w0);; cxx_delete (producer w0);;
       cxx_delete (formatter w0);; mret (q =? 0)%Z)
      (mkState w (<[ap := OProducer (polls n 1000 p)]> h) b evs) =
    Ret (q =? 0)%Z
      (mkState w (base.delete af (base.delete ap (base.delete at_
                    (<[ap := OProducer (polls n 1000 p)]> h)))) b evs)).
  { intros evs. unfold_monad. simpl. rewrite Ht, Hp, Hf.
    rewrite lookup_insert_ne, Hht by congruence. simpl.
    rewrite lookup_delete_ne, lookup_insert_eq by congruence. simpl.
    rewrite !lookup_delete_ne, lookup_insert_ne, Hhf by congruence. reflexivity. }
  destruct (q =? 0)%Z eqn:Hq.
  - unfold mret at 1, M_ret at 1. rewrite app_nil_r. apply Hdel.
  - rewrite (producer_outq_len_run _ ap (polls n 1000 p))
      by (split; [exact Hp|apply lookup_insert_eq]).
    fold q. unfold Error, emit. simpl. rewrite <- app_assoc. apply Hdel.
Qed.

(** C1: on an operational backend whose drain loop leaves after [n]
    polls, [DoFinish] returns, and returns [true] exactly when the
    outbound queue is empty after the loop; otherwise it reports the
    number of messages left.  In both cases the topic handle, the producer
    and the formatter have been deleted when it returns, and nothing else
    on the heap is touched.  Every call of [DoFinish] that returns is such
    a call. *)
Theorem finish_success_iff_drained (fuel : nat) (bif : BifConst.t) (s : State)
    af f ap p at_ t :
  live_formatter s af f -> live_producer s ap p -> live_topic s at_ t ->
  (forall n,
     exits_at p 0 (to_int (BifConst.max_wait_on_shutdown bif)) n -> (n < fuel)%nat ->
     let q := outq_len (polls n 1000 p) in
     exists r s',
       DoFinish fuel bif s = Ret r s' /\
       (r = true <-> q = 0) /\
       heap s' !! at_ = None /\ heap s' !! ap = None /\ heap s' !! af = None /\
       (forall a, a <> at_ -> a <> ap -> a <> af -> heap s' !! a = heap s !! a) /\
       appended s s' (repeat (CallPoll 1000) n ++
                      (if r then [] else [MsgError (Fmt_unable_to_deliver q)]))) /\
  (forall r s',
     DoFinish fuel bif s = Ret r s' ->
     exists n,
       exits_at p 0 (to_int (BifConst.max_wait_on_shutdown bif)) n /\ (n < fuel)%nat).
Proof.
  intros Hf Hp Ht. split.
  - intros n Hex Hfuel q.
    rewrite (DoFinish_run fuel bif s _ _ _ _ _ _ n Hf Hp Ht Hex Hfuel). fold q.
    destruct (live_distinct _ _ _ _ _ _ _ Hf Hp Ht) as (Hfp & Htp & Hft).
    eexists _, _. split; [reflexivity|]. simpl.
    split; [apply Z.eqb_eq|].
    split; [rewrite !lookup_delete_ne, lookup_delete_eq by congruence; reflexivity|].
    split; [rewrite lookup_delete_ne, lookup_delete_eq by congruence; reflexivity|].
    split; [apply lookup_delete_eq|].
    split; [|reflexivity].
    intros a Ha1 Ha2 Ha3. now rewrite !lookup_delete_ne, lookup_insert_ne by congruence.
  - intros r s' Hrun. destruct Hp as [Hp Hhp]. destruct s as [w h b e]; simpl in *.
    unfold DoFinish, mbind, M_bind in Hrun.
    destruct (drain fuel 1000 0 _ _) as [x s1| |] eqn:Hd; try discriminate.
    destruct (drain_returns _ _ _ _ _ _ _ _ _ _ _ Hp Hhp Hd) as (n & Hn & Hex).
    exists n. split; assumption.
Qed.

(** With the bound at [INT_MAX] and a queue that never drains,
    [DoFinish] does not return. *)
Lemma finish_stuck_at_INT_MAX (fuel : nat) (bif : BifConst.t) (s : State)
    (ap : nat) (p : Producer) :
  live_producer s ap p ->
  to_int (BifConst.max_wait_on_shutdown bif) = INT_MAX ->
  (forall n, 0 < outq_len (polls n 1000 p)) ->
  DoFinish fuel bif s = OutOfFuel.
Proof.
  intros [Hp Hhp] Hmw Hstuck. destruct s as [w h b e]; simpl in *.
  unfold DoFinish, mbind, M_bind. rewrite Hmw.
  rewrite (drain_stuck w b ap fuel 0 p h e Hp Hhp Hstuck); [reflexivity|].
  unfold INT_MAX. lia.
Qed.

(** X19: whenever the bound is at least one interval below [INT_MAX],
    [DoFinish] returns after at most [max_wait / 1000 + 1] polls,
    whatever the broker does. *)
Lemma finish_terminates_without_overflow (bif : BifConst.t) (s : State)
    af f ap p at_ t :
  live_formatter s af f -> live_producer s ap p -> live_topic s at_ t ->
  let mw := to_int (BifConst.max_wait_on_shutdown bif) in
  mw <= INT_MAX - 1000 ->
  exists n r s',
    Z.of_nat n <= Z.max 0 (mw / 1000 + 1) /\
    DoFinish (S n) bif s = Ret r s' /\
    (r = true <-> outq_len (polls n 1000 p) = 0).
Proof.
  intros Hf Hp Ht mw Hmw.
  destruct (drain_exits_without_overflow p mw Hmw) as (n & Hn & Hex).
  exists n. eexists _, _. split; [exact Hn|].
  rewrite (DoFinish_run (S n) bif s _ _ _ _ _ _ n Hf Hp Ht Hex ltac:(lia)).
  split; [reflexivity|]. apply Z.eqb_eq.
Qed.

(** The scenario of the specification: a bound of 2000 and a queue that
    never drains give three polls, 3000 ms on the counter, the error
    report and [false]. *)
Lemma finish_2000_queue_never_drains (fuel : nat) (bif : BifConst.t) (s : State)
    af f ap p at_ t :
  live_formatter s af f -> live_producer s ap p -> live_topic s at_ t ->
  BifConst.max_wait_on_shutdown bif = 2000 ->
  (forall n, 0 < outq_len (polls n 1000 p)) ->
  (3 < fuel)%nat ->
  exists s',
    DoFinish fuel bif s = Ret false s' /\
    appended s s' [CallPoll 1000; CallPoll 1000; CallPoll 1000;
                   MsgError (Fmt_unable_to_deliver (outq_len (polls 3 1000 p)))] /\
    waited_from 0 3 1000 = 3000.
Proof.
  intros Hf Hp Ht Hmw Hstuck Hfuel.
  assert (Hex : exits_at p 0 (to_int (BifConst.max_wait_on_shutdown bif)) 3).
  { rewrite Hmw. split.
    - apply andb_false_iff. right. reflexivity.
    - intros i Hi. apply andb_true_iff. split; [apply Z.ltb_lt, Hstuck|].
      destruct i as [|[|[|i]]]; [reflexivity..|lia]. }
  rewrite (DoFinish_run fuel bif s _ _ _ _ _ _ 3 Hf Hp Ht Hex Hfuel).
  pose proof (Hstuck 3%nat) as Hq. apply Z.lt_neq, not_eq_sym, Z.eqb_neq in Hq.
  rewrite Hq. eexists. split; [reflexivity|]. split; reflexivity.
Qed.

(** ** Further properties of the code *)

Lemma ascii_compare_refl (a : ascii) : Ascii.compare a a = Eq.
Proof. apply N.compare_refl. Qed.

Lemma ascii_compare_lt_trans (a b c : ascii) :
  Ascii.compare a b = Lt -> Ascii.compare b c = Lt -> Ascii.compare a c = Lt.
Proof.
  unfold Ascii.compare. rewrite !N.compare_lt_iff. apply N.lt_trans.
Qed.

Lemma string_compare_refl (x : string) : String.compare x x = Eq.
Proof.
  induction x as [|a x IH]; simpl; [reflexivity|]. now rewrite ascii_compare_refl.
Qed.

Lemma string_compare_lt_trans (x : string) : forall y z,
  String.compare x y = Lt -> String.compare y z = Lt -> String.compare x z = Lt.
Proof.
  induction x as [|a x IH]; intros [|b y] [|c z]; simpl; try discriminate; auto.
  destruct (Ascii.compare a b) eqn:Eab; try discriminate;
    destruct (Ascii.compare b c) eqn:Ebc; try discriminate; intros Hxy Hyz.
  - apply Ascii.compare_eq_iff in Eab, Ebc. subst.
    rewrite ascii_compare_refl. now apply IH with (y := y).
  - apply Ascii.compare_eq_iff in Eab. subst. now rewrite Ebc.
  - apply Ascii.compare_eq_iff in Ebc. subst. now rewrite Eab.
  - now rewrite (ascii_compare_lt_trans _ _ _ Eab Ebc).
Qed.

Lemma string_compare_gt_lt (x y : string) :
  String.compare x y = Gt -> String.compare y x = Lt.
Proof. intros Hgt. rewrite String.compare_antisym, Hgt. reflexivity. Qed.

Lemma string_eqb_compare (x y : string) :
  String.eqb x y = true <-> String.compare x y = Eq.
Proof.
  rewrite String.eqb_eq. split; [intros ->; apply string_compare_refl|].
  apply String.compare_eq_iff.
Qed.

Lemma key_lt_trans (x y z : string * string) : key_lt x y -> key_lt y z -> key_lt x z.
Proof. unfold key_lt. apply string_compare_lt_trans. Qed.

Lemma map_insert_sorted (key val : string) (m : std_map) :
  StronglySorted key_lt m -> StronglySorted key_lt (map_insert key val m).
Proof.
  induction 1 as [|[k v] m Hm IH Hall]; simpl.
  - repeat constructor.
  - destruct (String.compare key k) eqn:E.
    + now constructor.
    + constructor; [now constructor|]. constructor; [exact E|].
      rewrite Forall_forall in Hall |- *. intros y Hy.
      apply key_lt_trans with (y := (k, v)); [exact E|now apply Hall].
    + constructor; [exact IH|]. apply Forall_forall. intros y Hy.
      apply list_elem_of_In, in_map_insert in Hy as [->|Hy].
      * now apply string_compare_gt_lt.
      * rewrite Forall_forall in Hall. apply Hall. now apply list_elem_of_In.
Qed.

Lemma assoc_none_below (key : string) (m : std_map) :
  Forall (fun y => String.compare key (fst y) = Lt) m -> assoc key m = None.
Proof.
  induction 1 as [|[k v] m Hk _ IH]; simpl; [reflexivity|].
  simpl in Hk. destruct (String.eqb key k) eqn:E; [|exact IH].
  apply string_eqb_compare in E. congruence.
Qed.

Lemma assoc_map_insert (x key val : string) (m : std_map) :
  StronglySorted key_lt m ->
  assoc x (map_insert key val m) =
  if String.eqb x key
  then match assoc key m with Some v0 => Some v0 | None => Some val end
  else assoc x m.
Proof.
  induction 1 as [|[k v] m Hm IH Hall]; simpl; [reflexivity|].
  destruct (String.compare key k) eqn:E; simpl.
  - apply String.compare_eq_iff in E as ->. rewrite String.eqb_refl.
    destruct (String.eqb x k) eqn:Ex; [|reflexivity]. reflexivity.
  - assert (Hk : String.eqb key k = false).
    { destruct (String.eqb key k) eqn:Ek; [|reflexivity].
      apply string_eqb_compare in Ek. congruence. }
    rewrite Hk.
    assert (Hnone : assoc key m = None).
    { apply assoc_none_below. rewrite Forall_forall in Hall |- *. intros y Hy.
      apply string_compare_lt_trans with (y := k); [exact E|now apply Hall]. }
    rewrite Hnone. destruct (String.eqb x key) eqn:Ex; [reflexivity|].
    reflexivity.
  - assert (Hk : String.eqb key k = false).
    { destruct (String.eqb key k) eqn:Ek; [|reflexivity].
      apply string_eqb_compare in Ek. congruence. }
    rewrite Hk, IH.
    destruct (String.eqb x k) eqn:Exk; [|reflexivity].
    apply String.eqb_eq in Exk as ->.
    rewrite String.eqb_sym, Hk. reflexivity.
Qed.

(** Membership in a sorted map is lookup. *)
Lemma assoc_in_sorted (key val : string) (m : std_map) :
  StronglySorted key_lt m -> (In (key, val) m <-> assoc key m = Some val).
Proof.
  induction 1 as [|[k v] m Hm IH Hall]; simpl; [split; [tauto|discriminate]|].
  destruct (String.eqb key k) eqn:E.
  - apply String.eqb_eq in E as ->. split.
    + intros [Heq|Hin]; [congruence|].
      rewrite Forall_forall in Hall. apply list_elem_of_In, Hall in Hin.
      unfold key_lt in Hin. simpl in Hin. rewrite string_compare_refl in Hin. discriminate.
    + intros [= ->]. now left.
  - rewrite <- IH. split; [|tauto].
    intros [[= <- <-]|Hin]; [|exact Hin]. rewrite String.eqb_refl in E. discriminate.
Qed.

Lemma ctor_fold_sorted (l : list (string * string)) : forall m,
  StronglySorted key_lt m -> StronglySorted key_lt (fold_left ctor_step l m).
Proof.
  induction l as [|kv l IH]; intros m Hm; simpl; [exact Hm|].
  apply IH, map_insert_sorted, Hm.
Qed.

Lemma ctor_fold_assoc (x : string) (l : list (string * string)) : forall m,
  StronglySorted key_lt m ->
  assoc x (fold_left ctor_step l m) =
  match assoc x m with Some v => Some v | None => assoc x (map c_pair l) end.
Proof.
  induction l as [|[k v] l IH]; intros m Hm; simpl.
  - now destruct (assoc x m).
  - rewrite IH by now apply map_insert_sorted.
    unfold ctor_step at 1. simpl. rewrite assoc_map_insert by exact Hm.
    destruct (String.eqb x (c_str (CheckString k))) eqn:E.
    + apply String.eqb_eq in E as ->.
      now destruct (assoc (c_str (CheckString k)) m).
    + reflexivity.
Qed.

Lemma sorted_keys_nodup (m : std_map) :
  StronglySorted key_lt m -> List.NoDup (map fst m).
Proof.
  induction 1 as [|[k v] m Hm IH Hall]; simpl; constructor; [|exact IH].
  intros Hin. apply in_map_iff in Hin as ([k' v'] & Hk & Hin).
  simpl in Hk. subst k'.
  rewrite Forall_forall in Hall. apply list_elem_of_In, Hall in Hin.
  unfold key_lt in Hin. simpl in Hin. rewrite string_compare_refl in Hin. discriminate.
Qed.

Lemma assoc_in_nodup (key val : string) (l : list (string * string)) :
  List.NoDup (map fst l) -> (In (key, val) l <-> assoc key l = Some val).
Proof.
  induction l as [|[k v] l IH]; simpl; [split; [tauto|discriminate]|].
  intros Hnd. inversion Hnd as [|? ? Hk Hl]; subst.
  destruct (String.eqb key k) eqn:E.
  - apply String.eqb_eq in E as ->. split.
    + intros [Heq|Hin]; [congruence|].
      exfalso. apply Hk. apply in_map_iff. now exists (k, val).
    + intros [= ->]. now left.
  - rewrite <- (IH Hl). split; [|tauto].
    intros [[= <- <-]|Hin]; [|exact Hin]. rewrite String.eqb_refl in E. discriminate.
Qed.

Lemma ctor_assoc (bif : BifConst.t) (key : string) :
  assoc key (kafka_conf (KafkaWriter_new bif)) =
  assoc key (map c_pair (BifConst.kafka_conf bif)).
Proof. apply (ctor_fold_assoc key (BifConst.kafka_conf bif) []). constructor. Qed.

Lemma constructor_map_sorted_aux (bif : BifConst.t) :
  StronglySorted key_lt (kafka_conf (KafkaWriter_new bif)) /\
  List.NoDup (map fst (kafka_conf (KafkaWriter_new bif))).
Proof.
  assert (Hs : StronglySorted key_lt (kafka_conf (KafkaWriter_new bif))).
  { apply (ctor_fold_sorted (BifConst.kafka_conf bif) []). constructor. }
  split; [exact Hs|]. now apply sorted_keys_nodup.
Qed.

(** X1: the map the constructor builds is strictly ascending in its keys,
    whatever the order in which the table delivers its entries; so no key
    occurs twice. *)
Theorem constructor_map_sorted (bif : BifConst.t) :
  StronglySorted key_lt (kafka_conf (KafkaWriter_new bif)) /\
  List.NoDup (map fst (kafka_conf (KafkaWriter_new bif))).
Proof.
  exact (constructor_map_sorted_aux bif).
Qed.

(** X2: what the constructor's map holds under a key is the value of the
    first table entry whose key, as [CheckString] hands it back, is that
    key, the value too as [CheckString] hands it back; later entries whose
    keys come back the same are dropped. *)
Theorem constructor_map_lookup (bif : BifConst.t) (key : string) :
  assoc key (kafka_conf (KafkaWriter_new bif)) =
  assoc key (map c_pair (BifConst.kafka_conf bif)) /\
  forall val,
    In (key, val) (kafka_conf (KafkaWriter_new bif)) <->
    assoc key (map c_pair (BifConst.kafka_conf bif)) = Some val.
Proof.
  assert (Hs : StronglySorted key_lt (kafka_conf (KafkaWriter_new bif)))
    by (apply (ctor_fold_sorted (BifConst.kafka_conf bif) []); constructor).
  pose proof (ctor_assoc bif key) as Ha.
  split; [exact Ha|]. intros val. rewrite <- Ha. now apply assoc_in_sorted.
Qed.

(** X3: when the keys of the table, as [CheckString] hands them back,
    are pairwise different, the map the constructor builds does not depend
    on the order in which the table delivers its entries. *)
Theorem constructor_table_order (bif bif' : BifConst.t) :
  Permutation (BifConst.kafka_conf bif) (BifConst.kafka_conf bif') ->
  List.NoDup (map (fun kv => c_str (CheckString (fst kv))) (BifConst.kafka_conf bif)) ->
  kafka_conf (KafkaWriter_new bif) = kafka_conf (KafkaWriter_new bif').
Proof.
  intros Hperm Hnd.
  destruct (constructor_map_sorted_aux bif) as [Hs1 Hn1].
  destruct (constructor_map_sorted_aux bif') as [Hs2 Hn2].
  assert (Hnd1 : List.NoDup (map fst (map c_pair (BifConst.kafka_conf bif))))
    by (rewrite map_map; exact Hnd).
  assert (Hnd2 : List.NoDup (map fst (map c_pair (BifConst.kafka_conf bif')))).
  { eapply Permutation_NoDup; [|exact Hnd1]. now do 2 apply Permutation_map. }
  apply (sorting.StronglySorted_unique_strong key_lt); [|exact Hs1|exact Hs2|].
  - intros x1 x2 _ _ H12 H21. exfalso.
    pose proof (key_lt_trans _ _ _ H12 H21) as Hxx. unfold key_lt in Hxx.
    rewrite string_compare_refl in Hxx. discriminate.
  - apply Permutation.NoDup_Permutation.
    + eapply NoDup_map_inv. exact Hn1.
    + eapply NoDup_map_inv. exact Hn2.
    + intros [k v].
      rewrite (assoc_in_sorted k v _ Hs1), (assoc_in_sorted k v _ Hs2).
      rewrite (ctor_assoc bif k), (ctor_assoc bif' k).
      rewrite <- (assoc_in_nodup k v _ Hnd1), <- (assoc_in_nodup k v _ Hnd2).
      split; apply Permutation_in; [|symmetry]; now apply Permutation_map.
Qed.

(** *** More on DoInit *)

Lemma all_accepted (m : std_map) :
  forallb accepted m = true ->
  applied m = m /\ loop_events m = map call_set m.
Proof.
  induction m as [|[key val] m IH]; simpl; [tauto|].
  change (accepted (key, val))
    with (match Conf_set CONF_GLOBAL key val with CONF_OK => true | _ => false end).
  destruct (Conf_set CONF_GLOBAL key val); simpl; try discriminate.
  intros Hall. destruct (IH Hall) as [-> ->]. split; reflexivity.
Qed.

(** X4: a configuration the library accepts throughout makes [DoInit]
    succeed: the settings of the map go to the configuration object in key
    order, followed by [debug] when the debug string is not empty; the
    producer is created from exactly these settings and the topic handle
    under the resolved topic name; the formatter, the producer and the
    topic handle are live at fresh addresses. *)
Theorem init_valid_configuration (bif : BifConst.t) (info : WriterInfo) (s : State)
    (p : Producer) (t : Topic) :
  let settings := (kafka_conf (this s) ++ debug_setting bif)%list in
  forallb accepted settings = true ->
  Producer_create (gconf settings) = inl p ->
  Topic_create p (resolved_topic (this s) info) tconf_empty = inl t ->
  exists s',
    DoInit bif info s = Ret true s' /\
    live_formatter s' (brk s) (chosen_formatter bif info) /\
    live_producer s' (2 + brk s) p /\
    live_topic s' (4 + brk s) t /\
    topic_name (this s') = resolved_topic (this s) info /\
    appended s s'
      (debug_notice bif :: map call_set settings ++
       [CallProducerCreate (gconf settings);
        CallTopicCreate (resolved_topic (this s) info)] ++
       (if empty (BifConst.debug bif) then [] else [MsgInfo Fmt_created])).
Proof.
  destruct s as [w h b e]. cbv zeta. simpl.
  unfold debug_setting, debug_notice, resolved_topic, chosen_formatter.
  rewrite forallb_app. intros Hacc Hpc Htc.
  apply andb_true_iff in Hacc as [Hacc Hdbg].
  destruct (all_accepted _ Hacc) as [Happ Hev].
  run_init.
  all: rewrite ?Happ, ?Hev in *.
  all: simpl in *; rewrite ?app_nil_r in *.
  all: unfold accepted in Hdbg; simpl in Hdbg.
  all: repeat match goal with
              | Hc : Conf_set _ _ _ = _ |- _ => rewrite Hc in Hdbg; clear Hc
              end.
  all: simpl in Hdbg; try discriminate Hdbg.
  all: unfold gconf in *; simpl in *.
  all: try congruence.
  all: match goal with
       | H1 : Producer_create ?c = inl ?x, H2 : Producer_create ?c = inl ?y |- _ =>
           assert (x = y) as -> by congruence
       end.
  all: match goal with
       | H1 : Topic_create ?q ?n ?c = inl ?x, H2 : Topic_create ?q ?n ?c = inl ?y |- _ =>
           assert (x = y) as -> by congruence
       end.
  all: eexists; split; [reflexivity|].
  all: unfold live_formatter, live_producer, live_topic.
  all: repeat (split; [solve_lookup|]).
  all: unfold appended; simpl; rewrite ?map_app, <- ?app_assoc; reflexivity.
Qed.

(** X5: when every setting is accepted and the library then fails to
    create the producer, [DoInit] returns [false] with the producer field
    [NULL]; the last message is the error
    [Failed to create producer: ] followed by the library's reason; no
    topic handle is requested and the topic field keeps its
    value; the formatter and the configuration object stay allocated. *)
Theorem init_producer_creation_fails (bif : BifConst.t) (info : WriterInfo) (s : State)
    (err : string) :
  let settings := (kafka_conf (this s) ++ debug_setting bif)%list in
  forallb accepted settings = true ->
  Producer_create (gconf settings) = inr err ->
  exists s',
    DoInit bif info s = Ret false s' /\
    producer (this s') = NULL /\
    topic (this s') = topic (this s) /\
    live_formatter s' (brk s) (chosen_formatter bif info) /\
    heap s' !! (1 + brk s)%nat = Some (OConf (gconf settings)) /\
    brk s' = (2 + brk s)%nat /\
    appended s s'
      (debug_notice bif :: map call_set settings ++
       [CallProducerCreate (gconf settings);
        MsgError ("Failed to create producer: " ++ c_str err)%string]).
Proof.
  destruct s as [w h b e]. cbv zeta. simpl.
  unfold debug_setting, debug_notice, chosen_formatter.
  rewrite forallb_app. intros Hacc Hpc.
  apply andb_true_iff in Hacc as [Hacc Hdbg].
  destruct (all_accepted _ Hacc) as [Happ Hev].
  run_init.
  all: rewrite ?Happ, ?Hev in *.
  all: simpl in *; rewrite ?app_nil_r in *.
  all: unfold accepted in Hdbg; simpl in Hdbg.
  all: repeat match goal with
              | Hc : Conf_set _ _ _ = _ |- _ => rewrite Hc in Hdbg; clear Hc
              end.
  all: simpl in Hdbg; try discriminate Hdbg.
  all: unfold gconf in *; simpl in *.
  all: try congruence.
  all: match goal with
       | H1 : Producer_create ?c = inr ?x, H2 : Producer_create ?c = inr ?y |- _ =>
           assert (x = y) as -> by congruence
       end.
  all: eexists; split; [reflexivity|].
  all: split; [reflexivity|]; split; [reflexivity|].
  all: unfold live_formatter.
  all: repeat (split; [solve_lookup|]).
  all: unfold appended; simpl; rewrite ?map_app, <- ?app_assoc; reflexivity.
Qed.

(** X6: when the map's settings are accepted and the debug string is not
    empty but rejected as a value of [debug], [DoInit] returns [false]
    after applying the map's settings; its last message is the error
    [Failed to set 'debug'='level': reason], the level and the reason each
    printed up to its first NUL; no producer and no topic handle is
    requested. *)
Theorem init_debug_rejected (bif : BifConst.t) (info : WriterInfo) (s : State)
    (err : string) :
  forallb accepted (kafka_conf (this s)) = true ->
  empty (BifConst.debug bif) = false ->
  rejection "debug" (BifConst.debug bif) = Some err ->
  exists s',
    DoInit bif info s = Ret false s' /\
    producer (this s') = producer (this s) /\
    topic (this s') = topic (this s) /\
    heap s' !! (1 + brk s)%nat = Some (OConf (gconf (kafka_conf (this s)))) /\
    appended s s'
      (MsgInfo ("Debug is turned on and set to: " ++ c_str (BifConst.debug bif)
                ++ ".  Available debug context: " ++ c_str get_debug_contexts
                ++ ".")%string ::
       map call_set (kafka_conf (this s)) ++
       [CallConfSet "debug" (BifConst.debug bif);
        MsgError ("Failed to set 'debug'='" ++ c_str (BifConst.debug bif)
                  ++ "': " ++ c_str err)%string]).
Proof.
  destruct s as [w h b e]. simpl. unfold rejection. intros Hacc Hd Hrej.
  destruct (all_accepted _ Hacc) as [Happ Hev].
  run_init.
  all: rewrite ?Happ, ?Hev in *.
  all: try congruence.
  all: repeat match goal with
              | Hc : Conf_set _ _ _ = _ |- _ => rewrite Hc in Hrej; clear Hc
              end.
  all: try discriminate Hrej.
  all: injection Hrej as ->.
  all: eexists; split; [reflexivity|].
  all: split; [reflexivity|]; split; [reflexivity|].
  all: split; [solve_lookup|].
  all: unfold appended; simpl; rewrite <- ?app_assoc; reflexivity.
Qed.

Lemma call_set_no_error (m : std_map) : existsb is_error (map call_set m) = false.
Proof. induction m as [|kv m IH]; simpl; [reflexivity|exact IH]. Qed.

Lemma rejected_loop_events (m : std_map) :
  forallb accepted m = false ->
  exists pre key val err,
    loop_events m =
    (map call_set pre ++ [CallConfSet key val] ++
     [MsgError (Fmt_failed_to_set key val err)])%list.
Proof.
  induction m as [|[key val] m IH]; simpl; [discriminate|].
  change (accepted (key, val))
    with (match Conf_set CONF_GLOBAL key val with CONF_OK => true | _ => false end).
  destruct (Conf_set CONF_GLOBAL key val) as [err|err|] eqn:E; simpl; intros Hall.
  - now exists [], key, val, err.
  - now exists [], key, val, err.
  - destruct (IH Hall) as (pre & k & v & err & ->).
    now exists ((key, val) :: pre), k, v, err.
Qed.

(** X7: [DoInit] always starts with the notice about the debug level,
    and it returns [false] exactly when it reports an error: a successful
    run reports none, a failing run reports exactly one, as the last thing
    it does. *)
Theorem init_reports_one_error_iff_fails (bif : BifConst.t) (info : WriterInfo)
    (s : State) :
  exists r s' evs,
    DoInit bif info s = Ret r s' /\
    appended s s' (debug_notice bif :: evs) /\
    if r then existsb is_error evs = false
    else exists evs0 msg,
           evs = (evs0 ++ [MsgError msg])%list /\ existsb is_error evs0 = false.
Proof.
  destruct s as [w h b e]. unfold debug_notice.
  destruct (forallb accepted (kafka_conf w)) eqn:Hacc.
  - destruct (all_accepted _ Hacc) as [Happ Hev].
    run_init.
    all: try congruence.
    all: rewrite ?Hev.
    all: eexists _, _, _; split; [reflexivity|].
    all: split; [unfold appended; cbn [events]; rewrite <- ?app_assoc; reflexivity|].
    all: try (rewrite ?existsb_app, call_set_no_error; reflexivity).
    all: eexists _, _; split; [rewrite ?app_assoc; reflexivity|].
    all: rewrite ?existsb_app, ?call_set_no_error; reflexivity.
  - destruct (rejected_loop_events _ Hacc) as (pre & key & val & err & Hev).
    run_init.
    all: try congruence.
    all: rewrite ?Hev.
    all: eexists _, _, _; split; [reflexivity|].
    all: split; [unfold appended; cbn [events]; rewrite <- ?app_assoc; reflexivity|].
    all: eexists _, _; split; [rewrite ?app_assoc; reflexivity|].
    all: rewrite ?existsb_app, ?call_set_no_error; reflexivity.
Qed.

(** X8: on a heap where nothing lives at or above the next free address,
    [DoInit] only adds objects at fresh addresses: every object that was
    there is still there, unchanged, whatever the outcome, and the heap
    stays well formed.  The instance's copies of the map and of the
    tagging flag are not written. *)
Theorem init_allocates_fresh (bif : BifConst.t) (info : WriterInfo) (s : State) :
  heap_wf s ->
  exists r s',
    DoInit bif info s = Ret r s' /\
    heap_wf s' /\
    (brk s <= brk s')%nat /\
    (forall a, (a < brk s)%nat -> heap s' !! a = heap s !! a) /\
    kafka_conf (this s') = kafka_conf (this s) /\
    tag_json (this s') = tag_json (this s).
Proof.
  destruct s as [w h b e]. unfold heap_wf. simpl. intros Hwf.
  run_init.
  all: eexists _, _; split; [reflexivity|]; simpl.
  all: split; [intros a Ha; repeat (rewrite lookup_insert_ne by lia); apply Hwf; lia|].
  all: split; [lia|].
  all: split; [intros a Ha; repeat (rewrite lookup_insert_ne by lia); reflexivity|].
  all: split; reflexivity.
Qed.

(** *** More on DoFinish *)

(** X9: when the queue is empty at the start, or the bound converted to
    [int] is negative, [DoFinish] does not poll at all; it returns [true]
    exactly when the queue is empty, and otherwise reports
    [Unable to deliver n message(s)], [n] the queue length in decimal. *)
Theorem finish_without_waiting (fuel : nat) (bif : BifConst.t) (s : State)
    af f ap p at_ t :
  live_formatter s af f -> live_producer s ap p -> live_topic s at_ t ->
  outq_len p <= 0 \/ to_int (BifConst.max_wait_on_shutdown bif) < 0 ->
  exists s',
    DoFinish (S fuel) bif s = Ret (outq_len p =? 0)%Z s' /\
    appended s s'
      (if (outq_len p =? 0)%Z then []
       else [MsgError ("Unable to deliver "
                       ++ NilZero.string_of_int (Z.to_int (outq_len p))
                       ++ " message(s)")%string]) /\
    heap s' !! at_ = None /\ heap s' !! ap = None /\ heap s' !! af = None.
Proof.
  intros Hf Hp Ht Hcase.
  assert (Hex : exits_at p 0 (to_int (BifConst.max_wait_on_shutdown bif)) 0).
  { split; [|intros i Hi; lia]. simpl. unfold loop_cond.
    apply andb_false_iff. destruct Hcase as [Hq|Hmw]; [left|right].
    - now apply Z.ltb_ge.
    - now apply Z.leb_gt. }
  rewrite (DoFinish_run (S fuel) bif s _ _ _ _ _ _ 0 Hf Hp Ht Hex ltac:(lia)).
  destruct (live_distinct _ _ _ _ _ _ _ Hf Hp Ht) as (Hfp & Htp & Hft).
  eexists. split; [reflexivity|]. cbn [heap].
  split; [reflexivity|].
  split; [rewrite !lookup_delete_ne, lookup_delete_eq by congruence; reflexivity|].
  split; [rewrite lookup_delete_ne, lookup_delete_eq by congruence; reflexivity|].
  apply lookup_delete_eq.
Qed.

(** X10: when the broker empties the queue at the [k]-th poll and the
    counter has not passed the bound before it, [DoFinish] returns [true]
    after exactly [k] polls of 1000 ms and reports no error. *)
Theorem finish_drained_in_time (fuel : nat) (bif : BifConst.t) (s : State)
    af f ap p at_ t (k : nat) :
  live_formatter s af f -> live_producer s ap p -> live_topic s at_ t ->
  let mw := to_int (BifConst.max_wait_on_shutdown bif) in
  (forall i, (i < k)%nat -> 0 < outq_len (polls i 1000 p)) ->
  outq_len (polls k 1000 p) = 0 ->
  ((0 < k)%nat -> 1000 * (Z.of_nat k - 1) <= mw) ->
  (k < fuel)%nat ->
  exists s',
    DoFinish fuel bif s = Ret true s' /\
    appended s s' (repeat (CallPoll 1000) k) /\
    heap s' !! at_ = None /\ heap s' !! ap = None /\ heap s' !! af = None.
Proof.
  intros Hf Hp Ht mw Hbusy Hdone Hbound Hfuel.
  pose proof (to_int_range (BifConst.max_wait_on_shutdown bif)) as Hmw.
  fold mw in Hmw. unfold in_int in Hmw.
  assert (Hex : exits_at p 0 mw k).
  { split.
    - unfold loop_cond. rewrite Hdone. reflexivity.
    - intros i Hi. unfold loop_cond. apply andb_true_iff. split.
      + apply Z.ltb_lt, Hbusy, Hi.
      + apply Z.leb_le. specialize (Hbound ltac:(lia)).
        rewrite waited_from_no_overflow; unfold INT_MIN, INT_MAX in *; lia. }
  rewrite (DoFinish_run fuel bif s _ _ _ _ _ _ k Hf Hp Ht Hex Hfuel).
  destruct (live_distinct _ _ _ _ _ _ _ Hf Hp Ht) as (Hfp & Htp & Hft).
  rewrite Hdone. eexists. split; [reflexivity|]. cbn [heap].
  split; [unfold appended; simpl; now rewrite app_nil_r|].
  split; [rewrite !lookup_delete_ne, lookup_delete_eq by congruence; reflexivity|].
  split; [rewrite lookup_delete_ne, lookup_delete_eq by congruence; reflexivity|].
  apply lookup_delete_eq.
Qed.

(** X11: with a queue that never drains and a bound between 0 and
    [INT_MAX - 1000], [DoFinish] polls exactly [max_wait / 1000 + 1]
    times, so that the counter ends above the bound by at most one
    interval; it then reports [Unable to deliver n message(s)], [n] the
    queue length in decimal, and returns [false]. *)
Theorem finish_never_drains (fuel : nat) (bif : BifConst.t) (s : State)
    af f ap p at_ t :
  live_formatter s af f -> live_producer s ap p -> live_topic s at_ t ->
  let mw := to_int (BifConst.max_wait_on_shutdown bif) in
  let n := Z.to_nat (mw / 1000 + 1) in
  (forall i, 0 < outq_len (polls i 1000 p)) ->
  0 <= mw <= INT_MAX - 1000 ->
  (n < fuel)%nat ->
  exists s',
    DoFinish fuel bif s = Ret false s' /\
    appended s s'
      (repeat (CallPoll 1000) n ++
       [MsgError ("Unable to deliver "
                  ++ NilZero.string_of_int (Z.to_int (outq_len (polls n 1000 p)))
                  ++ " message(s)")%string]) /\
    mw < waited_from 0 n 1000 <= mw + 1000.
Proof.
  intros Hf Hp Ht mw n Hstuck Hmw Hfuel.
  assert (Hdiv : 1000 * (mw / 1000) <= mw < 1000 * (mw / 1000 + 1)).
  { pose proof (Z.mod_pos_bound mw 1000 ltac:(lia)).
    pose proof (Z.div_mod mw 1000 ltac:(lia)). lia. }
  assert (Hpos : 0 <= mw / 1000) by (apply Z.div_pos; lia).
  assert (Hn : Z.of_nat n = mw / 1000 + 1) by (unfold n; lia).
  assert (Hw : forall i, (i <= n)%nat -> waited_from 0 i 1000 = 1000 * Z.of_nat i).
  { intros i Hi. rewrite waited_from_no_overflow; unfold INT_MIN, INT_MAX in *; lia. }
  assert (Hex : exits_at p 0 mw n).
  { split.
    - unfold loop_cond. apply andb_false_iff. right. apply Z.leb_gt.
      rewrite Hw by lia. lia.
    - intros i Hi. unfold loop_cond. apply andb_true_iff. split.
      + apply Z.ltb_lt, Hstuck.
      + apply Z.leb_le. rewrite Hw by lia. lia. }
  rewrite (DoFinish_run fuel bif s _ _ _ _ _ _ n Hf Hp Ht Hex Hfuel).
  pose proof (Hstuck n) as Hq. apply Z.lt_neq, not_eq_sym, Z.eqb_neq in Hq.
  rewrite Hq. eexists. split; [reflexivity|]. split; [reflexivity|].
  rewrite Hw by lia. lia.
Qed.

(** *** Calls outside the lifetime of the handles *)

(** X12: no method checks its handles.  While the producer field is
    [NULL], as it is from construction until [DoInit] creates the
    producer, [DoFlush], [DoHeartbeat], [DoWrite] and [DoFinish] have no
    defined behaviour; [DoSetBuf] alone does not depend on the handles. *)
Theorem calls_without_producer_undefined (s : State) :
  producer (this s) = NULL ->
  DoFlush s = Undefined /\
  DoHeartbeat s = Undefined /\
  (forall entry, DoWrite entry s = Undefined) /\
  (forall fuel bif, DoFinish (S fuel) bif s = Undefined) /\
  (forall enabled, DoSetBuf enabled s = Ret true s).
Proof.
  intros Hnull. destruct s as [w h b e]; simpl in *.
  unfold DoFlush, DoHeartbeat, DoWrite, DoFinish, DoSetBuf, producer_poll,
    producer_outq_len.
  split; [unfold_monad; simpl; now rewrite Hnull|].
  split; [unfold_monad; simpl; now rewrite Hnull|].
  split; [|split].
  - intros entry. unfold_monad. simpl. rewrite Hnull.
    destruct (formatter w) as [af|]; [|reflexivity].
    destruct (h !! af) as [[f|c|p|t]|]; reflexivity.
  - intros fuel bif. simpl. unfold producer_outq_len. unfold_monad. simpl.
    now rewrite Hnull.
  - reflexivity.
Qed.

(** What a returning [DoFinish] leaves: the fields as they were and the
    three objects gone. *)
Lemma DoFinish_returns_state (fuel : nat) (bif : BifConst.t) (s : State)
    af f ap p at_ t (r : bool) (s' : State) :
  live_formatter s af f -> live_producer s ap p -> live_topic s at_ t ->
  DoFinish fuel bif s = Ret r s' ->
  this s' = this s /\ brk s' = brk s /\
  heap s' !! at_ = None /\ heap s' !! ap = None /\ heap s' !! af = None /\
  forall a, a <> at_ -> a <> ap -> a <> af -> heap s' !! a = heap s !! a.
Proof.
  intros Hf Hp Ht Hrun.
  assert (Hn : exists n,
            (n < fuel)%nat /\
            exits_at p 0 (to_int (BifConst.max_wait_on_shutdown bif)) n).
  { destruct Hp as [Hp Hhp]. destruct s as [w h b e]; simpl in *.
    unfold DoFinish, mbind, M_bind in Hrun.
    destruct (drain fuel 1000 0 _ _) as [x s1| |] eqn:Hd; try discriminate.
    exact (drain_returns _ _ _ _ _ _ _ _ _ _ _ Hp Hhp Hd). }
  destruct Hn as (n & Hfuel & Hex).
  rewrite (DoFinish_run fuel bif s _ _ _ _ _ _ n Hf Hp Ht Hex Hfuel) in Hrun.
  destruct (live_distinct _ _ _ _ _ _ _ Hf Hp Ht) as (Hfp & Htp & Hft).
  injection Hrun as _ <-. cbn [this heap brk].
  split; [reflexivity|]. split; [reflexivity|].
  split; [rewrite !lookup_delete_ne, lookup_delete_eq by congruence; reflexivity|].
  split; [rewrite lookup_delete_ne, lookup_delete_eq by congruence; reflexivity|].
  split; [apply lookup_delete_eq|].
  intros a Ha1 Ha2 Ha3. now rewrite !lookup_delete_ne, lookup_insert_ne by congruence.
Qed.

(** X13: [DoFinish] deletes the three objects and leaves the fields
    pointing to them.  After it has returned, [DoFlush], [DoHeartbeat],
    [DoWrite] and a second [DoFinish] have no defined behaviour. *)
Theorem calls_after_finish_undefined (fuel : nat) (bif : BifConst.t) (s : State)
    af f ap p at_ t (r : bool) (s' : State) :
  live_formatter s af f -> live_producer s ap p -> live_topic s at_ t ->
  DoFinish fuel bif s = Ret r s' ->
  producer (this s') = Some ap /\ topic (this s') = Some at_ /\
  formatter (this s') = Some af /\
  DoFlush s' = Undefined /\
  DoHeartbeat s' = Undefined /\
  (forall entry, DoWrite entry s' = Undefined) /\
  (forall fuel' bif', DoFinish (S fuel') bif' s' = Undefined).
Proof.
  intros Hf Hp Ht Hrun.
  destruct (DoFinish_returns_state _ _ _ _ _ _ _ _ _ _ _ Hf Hp Ht Hrun)
    as (Hthis & _ & _ & Hgp & Hgf & _).
  destruct Hf as [Hf _], Hp as [Hp _], Ht as [Ht _].
  rewrite <- Hthis in Hf, Hp, Ht.
  destruct s' as [w h b e]; simpl in *.
  split; [exact Hp|]. split; [exact Ht|]. split; [exact Hf|].
  unfold DoFlush, DoHeartbeat, DoWrite, DoFinish, producer_poll, producer_outq_len.
  split; [unfold_monad; simpl; now rewrite Hp, Hgp|].
  split; [unfold_monad; simpl; now rewrite Hp, Hgp|].
  split.
  - intros entry. unfold_monad. simpl. now rewrite Hf, Hgf.
  - intros fuel' bif'. simpl. unfold producer_outq_len. unfold_monad. simpl.
    now rewrite Hp, Hgp.
Qed.

(** [DoFinish] when [DoInit] stopped at the topic handle: the producer
    and the formatter are there, the topic field is [NULL]. *)
Lemma DoFinish_run_no_topic (fuel : nat) (bif : BifConst.t) (s : State)
    af f ap p (n : nat) :
  live_formatter s af f -> live_producer s ap p -> topic (this s) = NULL ->
  exits_at p 0 (to_int (BifConst.max_wait_on_shutdown bif)) n -> (n < fuel)%nat ->
  let q := outq_len (polls n 1000 p) in
  DoFinish fuel bif s =
  Ret (q =? 0)%Z
      (mkState (this s)
         (base.delete af (base.delete ap
            (<[ap := OProducer (polls n 1000 p)]> (heap s))))
         (brk s)
         (events s ++ repeat (CallPoll 1000) n ++
            (if (q =? 0)%Z then [] else [MsgError (Fmt_unable_to_deliver q)]))).
Proof.
  intros Hf Hp Ht Hex Hfuel q.
  assert (Hfp : af <> ap) by (destruct Hf, Hp; intros ->; congruence).
  destruct Hf as [Hf Hhf], Hp as [Hp Hhp].
  destruct s as [w h b e]; simpl in *.
  unfold DoFinish, mbind, M_bind.
  rewrite (drain_run w b ap _ n fuel 0 p h e Hp Hhp Hex Hfuel).
  rewrite (producer_outq_len_run _ ap (polls n 1000 p))
    by (split; [exact Hp|apply lookup_insert_eq]).
  fold q.
  assert (Hdel : forall evs,
    (w0 ← get_this; cxx_delete (topic w0);; cxx_delete (producer w0);;
       cxx_delete (formatter w0);; mret (q =? 0)%Z)
      (mkState w (<[ap := OProducer (polls n 1000 p)]> h) b evs) =
    Ret (q =? 0)%Z
      (mkState w (base.delete af (base.delete ap
                    (<[ap := OProducer (polls n 1000 p)]> h))) b evs)).
  { intros evs. unfold_monad. simpl. rewrite Ht, Hp, Hf. simpl.
    rewrite lookup_insert_eq. simpl.
    rewrite !lookup_delete_ne, lookup_insert_ne, Hhf by congruence. reflexivity. }
  destruct (q =? 0)%Z eqn:Hq.
  - unfold mret at 1, M_ret at 1. rewrite app_nil_r. apply Hdel.
  - rewrite (producer_outq_len_run _ ap (polls n 1000 p))
      by (split; [exact Hp|apply lookup_insert_eq]).
    fold q. unfold Error, emit. simpl. rewrite <- app_assoc. apply Hdel.
Qed.

(** X14: a backend whose [DoInit] failed at the topic handle can still
    be finished: with the topic field [NULL], [DoFinish] drains as usual,
    deletes the producer and the formatter and returns [true] exactly when
    the queue is empty after the loop. *)
Theorem finish_after_topic_failure (fuel : nat) (bif : BifConst.t) (s : State)
    af f ap p (n : nat) :
  live_formatter s af f -> live_producer s ap p -> topic (this s) = NULL ->
  exits_at p 0 (to_int (BifConst.max_wait_on_shutdown bif)) n -> (n < fuel)%nat ->
  exists r s',
    DoFinish fuel bif s = Ret r s' /\
    (r = true <-> outq_len (polls n 1000 p) = 0) /\
    heap s' !! ap = None /\ heap s' !! af = None /\
    forall a, a <> ap -> a <> af -> heap s' !! a = heap s !! a.
Proof.
  intros Hf Hp Ht Hex Hfuel.
  rewrite (DoFinish_run_no_topic fuel bif s _ _ _ _ n Hf Hp Ht Hex Hfuel).
  assert (Hfp : af <> ap) by (destruct Hf, Hp; intros ->; congruence).
  eexists _, _. split; [reflexivity|]. cbn [heap].
  split; [apply Z.eqb_eq|].
  split; [rewrite lookup_delete_ne, lookup_delete_eq by congruence; reflexivity|].
  split; [apply lookup_delete_eq|].
  intros a Ha1 Ha2. now rewrite !lookup_delete_ne, lookup_insert_ne by congruence.
Qed.

(** *** Sequences of calls *)

Lemma do_call_effect (c : Call) (s : State) :
  Operational s ->
  exists s' evs,
    do_call c s = Ret (call_result c) s' /\
    appended s s' evs /\
    Operational s' /\ this s' = this s /\
    (forall a, producer (this s) <> Some a -> heap s' !! a = heap s !! a) /\
    existsb is_blocking_poll evs = false /\
    length (List.filter is_produce evs) = (if is_write c then 1 else 0)%nat /\
    (length (List.filter is_poll evs) <= 1)%nat.
Proof.
  intros Hop. pose proof Hop as (af & f & ap & p & at_ & t & Hf & Hp & Ht).
  assert (Hframe : forall (x : Object) a,
            producer (this s) <> Some a -> <[ap := x]> (heap s) !! a = heap s !! a).
  { intros x a Ha. apply lookup_insert_ne. destruct Hp as [Hp _]. congruence. }
  destruct c as [entry|enabled| | |]; simpl.
  - rewrite (DoWrite_run entry s _ _ _ _ _ _ Hf Hp Ht). unfold write_post.
    destruct (produce p t _ _ _) as [resp p'].
    eexists _, _. split; [reflexivity|]. split; [reflexivity|].
    split; [now apply operational_update_producer with (p := p)|].
    split; [reflexivity|]. split; [apply Hframe|].
    destruct (resp =? ERR_NO_ERROR)%Z; simpl; repeat split; lia.
  - exists s, []. unfold appended. rewrite app_nil_r. simpl.
    repeat split; try assumption; lia.
  - rewrite (DoFlush_run s _ _ Hp).
    eexists _, _. split; [reflexivity|]. split; [reflexivity|].
    split; [now apply operational_update_producer with (p := p)|].
    split; [reflexivity|]. split; [apply Hframe|]. simpl. repeat split; lia.
  - unfold DoRotate. unfold_monad. simpl.
    eexists _, _. split; [reflexivity|]. split; [reflexivity|].
    split; [exists af, f, ap, p, at_, t; tauto|].
    split; [reflexivity|]. split; [reflexivity|]. simpl. repeat split; lia.
  - rewrite (DoHeartbeat_run s _ _ Hp).
    eexists _, _. split; [reflexivity|]. split; [reflexivity|].
    split; [now apply operational_update_producer with (p := p)|].
    split; [reflexivity|]. split; [apply Hframe|]. simpl. repeat split; lia.
Qed.

Lemma do_calls_effect (cs : list Call) : forall s,
  Operational s ->
  exists s' evs,
    do_calls cs s = Ret (map call_result cs) s' /\
    appended s s' evs /\
    Operational s' /\ this s' = this s /\
    (forall a, producer (this s) <> Some a -> heap s' !! a = heap s !! a) /\
    existsb is_blocking_poll evs = false /\
    length (List.filter is_produce evs) = length (List.filter is_write cs) /\
    (length (List.filter is_poll evs) <= length cs)%nat.
Proof.
  induction cs as [|c cs IH]; intros s Hop.
  - exists s, []. unfold appended. rewrite app_nil_r. simpl.
    repeat split; try assumption; lia.
  - destruct (do_call_effect c s Hop)
      as (s1 & evs1 & Hc & Ha1 & Hop1 & Hthis1 & Hfr1 & Hb1 & Hpr1 & Hpo1).
    destruct (IH s1 Hop1)
      as (s2 & evs2 & Hcs & Ha2 & Hop2 & Hthis2 & Hfr2 & Hb2 & Hpr2 & Hpo2).
    exists s2, (evs1 ++ evs2)%list. simpl. unfold mbind, M_bind. rewrite Hc, Hcs.
    split; [reflexivity|].
    split; [unfold appended in *; rewrite Ha2, Ha1, app_assoc; reflexivity|].
    split; [exact Hop2|]. split; [congruence|].
    split; [intros a Ha; rewrite Hfr2, Hfr1; [reflexivity|exact Ha|congruence]|].
    split; [rewrite existsb_app, Hb1, Hb2; reflexivity|].
    rewrite !List.filter_app, !length_app, Hpr1, Hpr2.
    split; [destruct (is_write c); simpl; lia|lia].
Qed.

(** X15: between [DoInit] and [DoFinish] no call waits on the broker.
    Whatever the sequence of writes, flushes, heartbeats, rotations and
    buffering changes, every call is carried out; each returns [true]
    (rotation returns what the base class answers); every poll has timeout
    zero; there is exactly one submission per write, and at most one poll
    per call. *)
Theorem calls_never_block (cs : list Call) (s : State) :
  Operational s ->
  exists s' evs,
    do_calls cs s = Ret (map call_result cs) s' /\
    appended s s' evs /\
    existsb is_blocking_poll evs = false /\
    length (List.filter is_produce evs) = length (List.filter is_write cs) /\
    (length (List.filter is_poll evs) <= length cs)%nat.
Proof.
  intros Hop.
  destruct (do_calls_effect cs s Hop)
    as (s' & evs & Hcs & Happ & _ & _ & _ & Hb & Hpr & Hpo).
  exists s', evs. tauto.
Qed.

(** X16: [DoWrite] on an operational backend makes exactly one
    submission, with the partition unassigned and the copy flag; the
    payload never holds a NUL and is the whole buffer when the buffer holds
    none.  An accepted submission is followed by one zero-timeout poll and
    nothing else, and the producer is left as that poll leaves it. *)
Theorem write_submits_once (s : State) (entry : LogEntry) af f ap p at_ t :
  live_formatter s af f -> live_producer s ap p -> live_topic s at_ t ->
  let raw := Describe f entry in
  let payload := c_str raw in
  exists s' rest,
    DoWrite entry s = Ret true s' /\
    appended s s' (CallProduce PARTITION_UA RK_MSG_COPY payload :: rest) /\
    existsb is_produce rest = false /\
    ~ occurs NUL payload /\
    (~ occurs NUL raw -> payload = raw) /\
    (forall p', produce p t PARTITION_UA RK_MSG_COPY payload = (ERR_NO_ERROR, p') ->
       rest = [CallPoll 0] /\ live_producer s' ap (poll p' 0)).
Proof.
  intros Hf Hp Ht raw payload.
  rewrite (DoWrite_run entry s _ _ _ _ _ _ Hf Hp Ht), substring_strlen.
  fold raw. fold payload. unfold write_post.
  destruct (produce p t _ _ _) as [resp p'] eqn:Hprod.
  eexists _, _. split; [reflexivity|]. split; [reflexivity|].
  split; [destruct (resp =? ERR_NO_ERROR)%Z; reflexivity|].
  split; [apply c_str_no_NUL|]. split; [apply c_str_id|].
  intros p'' [= -> ->]. simpl. split; [reflexivity|].
  destruct Hp as [Hp _]. split; [exact Hp|]. simpl. apply lookup_insert_eq.
Qed.

(** X17: the serialisation [DoWrite] submits is that of the formatter
    [DoInit] chose from the shared store and the stream path: tagged with
    the path when the store's flag was set at that time, plain otherwise,
    with epoch timestamps. *)
Theorem write_uses_init_formatter (bif : BifConst.t) (info : WriterInfo)
    (s s1 : State) (entry : LogEntry) :
  DoInit bif info s = Ret true s1 ->
  exists s2 rest,
    DoWrite entry s1 = Ret true s2 /\
    appended s1 s2
      (CallProduce PARTITION_UA RK_MSG_COPY
         (c_str (Describe (chosen_formatter bif info) entry)) :: rest) /\
    existsb is_produce rest = false.
Proof.
  intros Hrun.
  assert (Hlive : exists ap p at_ t,
            live_formatter s1 (brk s) (chosen_formatter bif info) /\
            live_producer s1 ap p /\ live_topic s1 at_ t).
  { destruct s as [w h b e]. revert Hrun.
    run_init; intros Hrun; inversion Hrun; subst; simpl.
    all: eexists (S (S b)), _, (S (S (S (S b)))), _.
    all: unfold live_formatter, live_producer, live_topic, chosen_formatter; simpl.
    all: repeat split; solve_lookup. }
  destruct Hlive as (ap & p & at_ & t & Hf & Hp & Ht).
  rewrite (DoWrite_run entry s1 _ _ _ _ _ _ Hf Hp Ht), substring_strlen.
  unfold write_post. destruct (produce p t _ _ _) as [resp p'].
  eexists _, _. split; [reflexivity|]. split; [reflexivity|].
  destruct (resp =? ERR_NO_ERROR)%Z; reflexivity.
Qed.

(** X18: the two configuration objects [DoInit] creates are never
    deleted.  After a successful [DoInit], any sequence of calls and a
    returning [DoFinish], the global and the topic configuration are still
    allocated and the fields still point to them, while the formatter, the
    producer and the topic handle are gone. *)
Theorem conf_objects_outlive_finish (bif bif' : BifConst.t) (info : WriterInfo)
    (s s1 s2 s3 : State) (cs : list Call) (rs : list bool) (fuel : nat) (r : bool) :
  DoInit bif info s = Ret true s1 ->
  do_calls cs s1 = Ret rs s2 ->
  DoFinish fuel bif' s2 = Ret r s3 ->
  conf (this s3) = Some (1 + brk s)%nat /\
  topic_conf (this s3) = Some (3 + brk s)%nat /\
  heap s3 !! (1 + brk s)%nat
    = Some (OConf (gconf (kafka_conf (this s) ++ debug_setting bif))) /\
  heap s3 !! (3 + brk s)%nat = Some (OConf tconf_empty) /\
  heap s3 !! brk s = None /\
  heap s3 !! (2 + brk s)%nat = None /\
  heap s3 !! (4 + brk s)%nat = None.
Proof.
  intros Hinit Hcalls Hfin.
  assert (H1 : exists f p t,
            live_formatter s1 (brk s) f /\
            live_producer s1 (2 + brk s) p /\
            live_topic s1 (4 + brk s) t /\
            conf (this s1) = Some (1 + brk s)%nat /\
            topic_conf (this s1) = Some (3 + brk s)%nat /\
            heap s1 !! (1 + brk s)%nat
              = Some (OConf (gconf (kafka_conf (this s) ++ debug_setting bif))) /\
            heap s1 !! (3 + brk s)%nat = Some (OConf tconf_empty)).
  { destruct s as [w h b e]. revert Hinit. unfold debug_setting.
    run_init; intros Hinit; inversion Hinit; subst; simpl.
    all: match goal with
         | Hacc : forallb accepted _ = true |- _ =>
             destruct (all_accepted _ Hacc) as [Happ _]; rewrite Happ
         end.
    all: rewrite ?app_nil_r.
    all: eexists _, _, _.
    all: unfold live_formatter, live_producer, live_topic, gconf; simpl.
    all: repeat split; solve_lookup. }
  destruct H1 as (f & p & t & Hf & Hp & Ht & Hc & Htc & Hhc & Hhtc).
  assert (Hop1 : Operational s1) by (exists (brk s), f, (2 + brk s)%nat, p, (4 + brk s)%nat, t; tauto).
  destruct (do_calls_effect cs s1 Hop1)
    as (s2' & evs & Hcs & _ & Hop2 & Hthis & Hframe & _).
  rewrite Hcalls in Hcs. injection Hcs as _ <-.
  assert (Hpa : producer (this s1) = Some (2 + brk s)%nat) by (destruct Hp; assumption).
  assert (Hf2 : live_formatter s2 (brk s) f).
  { destruct Hf as [Hf Hhf]. split; [congruence|].
    rewrite Hframe; [exact Hhf|]. rewrite Hpa. intros [=]. lia. }
  assert (Ht2 : live_topic s2 (4 + brk s) t).
  { destruct Ht as [Ht Hht]. split; [congruence|].
    rewrite Hframe; [exact Hht|]. rewrite Hpa. intros [=]. lia. }
  assert (Hp2 : exists p2, live_producer s2 (2 + brk s) p2).
  { destruct Hop2 as (af & f2 & ap & p2 & at2 & t2 & _ & [Hp2 Hhp2] & _).
    exists p2. split; [congruence|]. rewrite Hthis, Hpa in Hp2.
    injection Hp2 as <-. exact Hhp2. }
  destruct Hp2 as (p2 & Hp2).
  destruct (DoFinish_returns_state _ _ _ _ _ _ _ _ _ _ _ Hf2 Hp2 Ht2 Hfin)
    as (Hthis3 & _ & Hgt & Hgp & Hgf & Hrest).
  rewrite Hthis3, Hthis.
  split; [exact Hc|]. split; [exact Htc|].
  split; [rewrite Hrest by lia; rewrite Hframe; [exact Hhc|rewrite Hpa; intros [=]; lia]|].
  split; [rewrite Hrest by lia; rewrite Hframe; [exact Hhtc|rewrite Hpa; intros [=]; lia]|].
  split; [exact Hgf|]. split; [exact Hgp|exact Hgt].
Qed.

End Properties.

(** * The writer on concrete inputs *)

Lemma stuck_polls (n : nat) :
  @polls Scenario.stuck n 1000 Scenario.ready_producer = Scenario.ready_producer.
Proof. induction n as [|n IH]; [reflexivity|exact IH]. Qed.

Lemma ready_live :
  @live_formatter Scenario.stuck Scenario.ready 0 (JSON TS_EPOCH) /\
  @live_producer Scenario.stuck Scenario.ready 2 Scenario.ready_producer /\
  @live_topic Scenario.stuck Scenario.ready 4 "conn".
Proof. repeat split. Qed.

(** C5, refuted on a run: with [max_wait_on_shutdown] at [INT_MAX] and
    a broker that never delivers the queued message, [DoInit] succeeds and
    the loop of [DoFinish] is still running after any number of
    evaluations of its condition, so the call does not return. *)
Theorem finish_unbounded_at_INT_MAX :
  let bif := Scenario.store 2147483647 in
  @DoInit Scenario.stuck bif Scenario.conn (@constructed _ Sim.host bif)
    = Ret true (Scenario.ready_with 2147483647) /\
  @Operational Scenario.stuck (Scenario.ready_with 2147483647) /\
  forall fuel : nat,
    @DoFinish Scenario.stuck fuel bif (Scenario.ready_with 2147483647) = OutOfFuel.
Proof.
  intros bif.
  assert (Hlive :
    @live_formatter Scenario.stuck (Scenario.ready_with 2147483647) 0 (JSON TS_EPOCH) /\
    @live_producer Scenario.stuck (Scenario.ready_with 2147483647) 2
       Scenario.ready_producer /\
    @live_topic Scenario.stuck (Scenario.ready_with 2147483647) 4 "conn")
    by (repeat split).
  destruct Hlive as (Hf & Hp & Ht).
  split; [vm_compute; reflexivity|]. split.
  - exists 0%nat, (JSON TS_EPOCH), 2%nat, Scenario.ready_producer, 4%nat, "conn". tauto.
  - intros fuel.
    apply (@finish_stuck_at_INT_MAX Scenario.stuck fuel _ _ 2%nat Scenario.ready_producer Hp).
    + reflexivity.
    + intros n. rewrite stuck_polls. reflexivity.
Qed.

(** C3, refuted on two runs: both start from the same constructed
    object; in the second the shared store is changed between
    construction and [DoInit].  The runs differ in the formatter (plain
    in the first, tagged in the second, although the instance's own copy
    of the flag says plain), in the debug setting applied to the library,
    and in the number of polls [DoFinish] waits for. *)
Theorem shared_store_read_after_construction :
  let L := Scenario.stuck in
  let s0 := @constructed L Sim.host (Scenario.store 2000) in
  exists s1 s2 s3 s4 : @State L,
    @DoInit L (Scenario.store 2000) Scenario.conn s0 = Ret true s1 /\
    @DoInit L Scenario.store_changed Scenario.conn s0 = Ret true s2 /\
    tag_json (this s2) = false /\
    heap s1 !! 0%nat = Some (OFormatter (JSON TS_EPOCH)) /\
    heap s2 !! 0%nat = Some (OFormatter (TaggedJSON "conn" TS_EPOCH)) /\
    ~ In (CallConfSet "debug" "all") (events s1) /\
    In (CallConfSet "debug" "all") (events s2) /\
    @DoFinish L 5 (Scenario.store 2000) s1 = Ret false s3 /\
    @DoFinish L 5 Scenario.store_changed s1 = Ret false s4 /\
    count_occ Z.eq_dec
      (flat_map (fun e => match e with CallPoll t => [t] | _ => [] end) (events s3))
      1000 = 3%nat /\
    count_occ Z.eq_dec
      (flat_map (fun e => match e with CallPoll t => [t] | _ => [] end) (events s4))
      1000 = 1%nat.
Proof.
  intros L s0. eexists _, _, _, _.
  split; [vm_compute; reflexivity|].
  split; [vm_compute; reflexivity|].
  split; [reflexivity|].
  split; [reflexivity|].
  split; [reflexivity|].
  split; [vm_compute; intuition discriminate|].
  split; [vm_compute; tauto|].
  split; [vm_compute; reflexivity|].
  split; [vm_compute; reflexivity|].
  split; vm_compute; reflexivity.
Qed.

(** *** Instances of the general theorems *)

Lemma ready_operational : @Operational Scenario.stuck Scenario.ready.
Proof.
  exists 0%nat, (JSON TS_EPOCH), 2%nat, Scenario.ready_producer, 4%nat, "conn".
  exact ready_live.
Defined.

(** [DoFinish] on the stuck broker with a bound of 2000: the loop leaves
    after three polls, the call returns [false] and the producer is gone. *)
Lemma finish_success_iff_drained_witness :
  @live_formatter Scenario.stuck Scenario.ready 0 (JSON TS_EPOCH) /\
  @live_producer Scenario.stuck Scenario.ready 2 Scenario.ready_producer /\
  @live_topic Scenario.stuck Scenario.ready 4 "conn" /\
  exists s',
    @DoFinish Scenario.stuck 5 (Scenario.store 2000) Scenario.ready = Ret false s' /\
    heap s' !! 2%nat = None.
Proof.
  destruct ready_live as (Hf & Hp & Ht).
  split; [exact Hf|]. split; [exact Hp|]. split; [exact Ht|].
  destruct (@finish_success_iff_drained Scenario.stuck 5 (Scenario.store 2000)
              Scenario.ready _ _ _ _ _ _ Hf Hp Ht) as [Hment _].
  assert (Hex : @exits_at Scenario.stuck Scenario.ready_producer 0
                  (to_int (BifConst.max_wait_on_shutdown (Scenario.store 2000))) 3).
  { split; [reflexivity|]. intros i Hi.
    destruct i as [|[|[|i]]]; [reflexivity..|lia]. }
  destruct (Hment 3%nat Hex ltac:(lia)) as (r & s' & Hrun & Hiff & _ & Hgone & _).
  exists s'. split; [|exact Hgone].
  destruct r; [|exact Hrun].
  destruct Hiff as [Hq _]. specialize (Hq eq_refl). discriminate Hq.
Defined.

Lemma init_rejected_setting_witness :
  (exists key val err,
     In (key, val)
        (kafka_conf (this (@constructed Scenario.stuck Sim.host Scenario.store_bad_key))) /\
     @rejection Scenario.stuck key val = Some err) /\
  exists s',
    @DoInit Scenario.stuck (Scenario.store 2000) Scenario.conn
      (@constructed _ Sim.host Scenario.store_bad_key) = Ret false s' /\
    events s' =
      [MsgInfo "Debug is turned off."; CallConfSet "bogus.key" "1";
       MsgError "Failed to set 'bogus.key'='1': No such configuration property: bogus.key"] /\
    producer (this s') = NULL /\ topic (this s') = NULL.
Proof.
  assert (Hbad : exists key val err,
     In (key, val)
        (kafka_conf (this (@constructed Scenario.stuck Sim.host Scenario.store_bad_key))) /\
     @rejection Scenario.stuck key val = Some err).
  { exists "bogus.key", "1", "No such configuration property: bogus.key".
    split; [left; reflexivity|reflexivity]. }
  split; [exact Hbad|].
  destruct (@init_rejected_setting Scenario.stuck Sim.host (Scenario.store 2000)
              Scenario.conn (@constructed _ Sim.host Scenario.store_bad_key) Hbad)
    as (s' & pre & key & val & post & err & evs & Hrun & _ & _ & _ & _ & _ & _ & _ & _ & Hnull).
  exists s'. split; [exact Hrun|].
  split.
  { assert (Hc : match @DoInit Scenario.stuck (Scenario.store 2000) Scenario.conn
                         (@constructed _ Sim.host Scenario.store_bad_key)
                 with Ret _ x => events x | _ => [] end =
                 [MsgInfo "Debug is turned off."; CallConfSet "bogus.key" "1";
                  MsgError "Failed to set 'bogus.key'='1': No such configuration property: bogus.key"])
      by (vm_compute; reflexivity).
    rewrite Hrun in Hc. exact Hc. }
  destruct (Hnull _ eq_refl) as (Hp & Ht & _). split; [exact Hp|exact Ht].
Defined.

Lemma write_rejection_not_fatal_witness :
  @produce Scenario.stuck Scenario.ready_producer "conn" PARTITION_UA RK_MSG_COPY
     (c_str (@Describe Sim.host (JSON TS_EPOCH) Scenario.entry_too_large))
    = (Sim.ERR_MSG_SIZE_TOO_LARGE, Scenario.ready_producer) /\
  Sim.ERR_MSG_SIZE_TOO_LARGE <> ERR_NO_ERROR /\
  exists s' s'',
    @DoWrite Scenario.stuck Sim.host Scenario.entry_too_large Scenario.ready = Ret true s' /\
    appended Scenario.ready s'
      [CallProduce PARTITION_UA RK_MSG_COPY "{0123456789abcdef}";
       MsgError "Kafka send failed: Broker: Message size too large"] /\
    @DoWrite Scenario.stuck Sim.host "ok" s' = Ret true s'' /\
    appended s' s'' [CallProduce PARTITION_UA RK_MSG_COPY "{ok}"; CallPoll 0].
Proof.
  destruct ready_live as (Hf & Hp & Ht).
  split; [reflexivity|]. split; [discriminate|].
  destruct (@write_rejection_not_fatal Scenario.stuck Sim.host Scenario.ready
              Scenario.entry_too_large _ _ _ _ _ _
              Sim.ERR_MSG_SIZE_TOO_LARGE Scenario.ready_producer Hf Hp Ht eq_refl
              ltac:(discriminate))
    as (s' & Hrun & Happ & _ & _ & _ & Hnext).
  destruct (Hnext "ok") as (s'' & Hrun' & Hacc).
  exists s', s''. split; [exact Hrun|]. split; [exact Happ|]. split; [exact Hrun'|].
  exact (proj1 (Hacc _ eq_refl)).
Defined.

Lemma init_success_operational_witness :
  @DoInit Scenario.stuck (Scenario.store 2000) Scenario.conn
    (@constructed _ Sim.host (Scenario.store 2000)) = Ret true Scenario.ready /\
  @Operational Scenario.stuck Scenario.ready /\
  exists rs s'',
    @do_calls Scenario.stuck Sim.host Scenario.calls Scenario.ready = Ret rs s'' /\
    producer (this s'') = producer (this Scenario.ready).
Proof.
  assert (Hrun : @DoInit Scenario.stuck (Scenario.store 2000) Scenario.conn
                   (@constructed _ Sim.host (Scenario.store 2000)) = Ret true Scenario.ready)
    by (vm_compute; reflexivity).
  split; [exact Hrun|].
  destruct (@init_success_operational Scenario.stuck Sim.host _ _ _ _ Hrun)
    as (_ & _ & Hop & Hcalls).
  split; [exact Hop|].
  destruct (Hcalls Scenario.calls) as (rs & s'' & Hcs & _ & Hprod & _).
  exists rs, s''. split; [exact Hcs|exact Hprod].
Defined.




Lemma write_truncates_at_NUL_witness :
  occurs NUL (@Describe Sim.host (JSON TS_EPOCH) Scenario.entry_with_NUL) /\
  exists pre post s' rest,
    @Describe Sim.host (JSON TS_EPOCH) Scenario.entry_with_NUL = pre ++ String NUL post /\
    ~ occurs NUL pre /\
    @DoWrite Scenario.stuck Sim.host Scenario.entry_with_NUL Scenario.ready = Ret true s' /\
    appended Scenario.ready s' (CallProduce PARTITION_UA RK_MSG_COPY pre :: rest).
Proof.
  destruct ready_live as (Hf & Hp & Ht).
  assert (Hocc : occurs NUL (@Describe Sim.host (JSON TS_EPOCH) Scenario.entry_with_NUL))
    by (simpl; tauto).
  split; [exact Hocc|].
  destruct (@write_truncates_at_NUL Scenario.stuck Sim.host Scenario.ready
              Scenario.entry_with_NUL _ _ _ _ _ _ Hf Hp Ht Hocc)
    as (pre & post & s' & rest & Hsplit & Hno & _ & Hrun & Happ & _).
  exists pre, post, s', rest. tauto.
Defined.

(** [DoInit] with neither a topic name nor a stream path: the simulated
    library creates the producer and refuses the topic handle. *)
Lemma init_failure_keeps_partial_state_witness :
  exists s',
    @DoInit Scenario.stuck (Scenario.store 2000) Scenario.no_path
      (@constructed _ Sim.host (Scenario.store 2000)) = Ret false s' /\
    (exists af f, live_formatter s' af f) /\
    (exists ap, live_producer s' ap Scenario.ready_producer) /\
    topic (this s') = NULL.
Proof.
  destruct (@init_failure_keeps_partial_state Scenario.stuck (Scenario.store 2000)
              Scenario.no_path (@constructed _ Sim.host (Scenario.store 2000)))
    as (r & s' & Hrun & Hfmt & Hpart).
  assert (Hr : r = false).
  { assert (Hc : match @DoInit Scenario.stuck (Scenario.store 2000) Scenario.no_path
                         (@constructed _ Sim.host (Scenario.store 2000))
                 with Ret x _ => x | _ => true end = false)
      by (vm_compute; reflexivity).
    rewrite Hrun in Hc. exact Hc. }
  subst r. exists s'. split; [exact Hrun|]. split; [exact (Hfmt eq_refl)|].
  assert (Hev : events s' =
                [MsgInfo Fmt_debug_off; CallConfSet "bootstrap.servers" "x";
                 CallProducerCreate (gconf [("bootstrap.servers", "x")]);
                 CallTopicCreate ""; MsgError (Fmt_failed_topic "Invalid topic name")]).
  { assert (Hc : match @DoInit Scenario.stuck (Scenario.store 2000) Scenario.no_path
                         (@constructed _ Sim.host (Scenario.store 2000))
                 with Ret _ x => events x | _ => [] end =
                 [MsgInfo Fmt_debug_off; CallConfSet "bootstrap.servers" "x";
                  CallProducerCreate (gconf [("bootstrap.servers", "x")]);
                  CallTopicCreate ""; MsgError (Fmt_failed_topic "Invalid topic name")])
      by (vm_compute; reflexivity).
    rewrite Hrun in Hc. exact Hc. }
  assert (Htn : topic_name (this s') = "").
  { assert (Hc : match @DoInit Scenario.stuck (Scenario.store 2000) Scenario.no_path
                         (@constructed _ Sim.host (Scenario.store 2000))
                 with Ret _ x => topic_name (this x) | _ => "" end = "")
      by (vm_compute; reflexivity).
    rewrite Hrun in Hc. exact Hc. }
  destruct (Hpart _ (gconf [("bootstrap.servers", "x")]) Scenario.ready_producer
              "Invalid topic name" Hev)
    as (_ & Hprod & Htop & _).
  - right; right; left; reflexivity.
  - reflexivity.
  - rewrite Htn. reflexivity.
  - split; [exact Hprod|exact Htop].
Defined.

Lemma init_resolves_topic_name_witness :
  exists r s',
    @DoInit Scenario.stuck (Scenario.store 2000) Scenario.conn
      (@constructed _ Sim.host (Scenario.store 2000)) = Ret r s' /\
    topic_name (this s') = "conn".
Proof.
  destruct (@init_resolves_topic_name Scenario.stuck Sim.host) as [_ Hconn].
  exact (Hconn (Scenario.store 2000) false [("bootstrap.servers", "x")] "" 2000).
Defined.


(** *** Instances of the further theorems *)

Lemma constructor_table_order_witness :
  Permutation (BifConst.kafka_conf Runs.store_ab) (BifConst.kafka_conf Runs.store_ba) /\
  List.NoDup (map (fun kv => c_str (@CheckString Sim.host (fst kv)))
                  (BifConst.kafka_conf Runs.store_ab)) /\
  kafka_conf (@KafkaWriter_new Sim.host Runs.store_ba) = [("a", "1"); ("b", "2")].
Proof.
  assert (Hperm : Permutation (BifConst.kafka_conf Runs.store_ab)
                              (BifConst.kafka_conf Runs.store_ba))
    by apply perm_swap.
  assert (Hnd : List.NoDup (map (fun kv => c_str (@CheckString Sim.host (fst kv)))
                                (BifConst.kafka_conf Runs.store_ab))).
  { simpl. constructor; [intros [Hx|[]]; discriminate Hx|].
    constructor; [intros []|constructor]. }
  split; [exact Hperm|]. split; [exact Hnd|].
  rewrite <- (@constructor_table_order Sim.host Runs.store_ab Runs.store_ba Hperm Hnd).
  reflexivity.
Defined.

Lemma init_valid_configuration_witness :
  forallb (@accepted Scenario.stuck)
    (kafka_conf (this (@constructed Scenario.stuck Sim.host (Scenario.store 2000))) ++
     debug_setting (Scenario.store 2000)) = true /\
  exists s',
    @DoInit Scenario.stuck (Scenario.store 2000) Scenario.conn
      (@constructed _ Sim.host (Scenario.store 2000)) = Ret true s' /\
    live_producer s' 2 Scenario.ready_producer /\
    live_topic s' 4 "conn".
Proof.
  split; [reflexivity|].
  destruct (@init_valid_configuration Scenario.stuck (Scenario.store 2000)
              Scenario.conn (@constructed _ Sim.host (Scenario.store 2000))
              Scenario.ready_producer "conn" eq_refl eq_refl eq_refl)
    as (s' & Hrun & _ & Hp & Ht & _).
  exists s'. split; [exact Hrun|]. split; [exact Hp|exact Ht].
Defined.

Lemma init_producer_creation_fails_witness :
  @Producer_create Runs.no_client
    (gconf (kafka_conf (this (@constructed Runs.no_client Sim.host (Scenario.store 2000))) ++
            debug_setting (Scenario.store 2000)))
    = inr "Failed to create thread" /\
  exists s',
    @DoInit Runs.no_client (Scenario.store 2000) Scenario.conn
      (@constructed _ Sim.host (Scenario.store 2000)) = Ret false s' /\
    producer (this s') = NULL /\
    events s' =
      [MsgInfo "Debug is turned off."; CallConfSet "bootstrap.servers" "x";
       CallProducerCreate (gconf [("bootstrap.servers", "x")]);
       MsgError "Failed to create producer: Failed to create thread"].
Proof.
  split; [reflexivity|].
  destruct (@init_producer_creation_fails Runs.no_client (Scenario.store 2000)
              Scenario.conn (@constructed _ Sim.host (Scenario.store 2000))
              "Failed to create thread" eq_refl eq_refl)
    as (s' & Hrun & Hp & _ & _ & _ & _ & Happ).
  exists s'. split; [exact Hrun|]. split; [exact Hp|exact Happ].
Defined.

Lemma init_debug_rejected_witness :
  @rejection Scenario.stuck "debug" (BifConst.debug Runs.store_bad_debug)
    = Some "Invalid value for configuration property debug" /\
  exists s',
    @DoInit Scenario.stuck Runs.store_bad_debug Scenario.conn
      (@constructed _ Sim.host Runs.store_bad_debug) = Ret false s' /\
    producer (this s') = NULL /\
    events s' =
      [MsgInfo "Debug is turned on and set to: bogus.  Available debug context: all,generic,broker,topic,metadata,queue,msg,protocol.";
       CallConfSet "bootstrap.servers" "x"; CallConfSet "debug" "bogus";
       MsgError "Failed to set 'debug'='bogus': Invalid value for configuration property debug"].
Proof.
  split; [reflexivity|].
  destruct (@init_debug_rejected Scenario.stuck Runs.store_bad_debug Scenario.conn
              (@constructed _ Sim.host Runs.store_bad_debug)
              "Invalid value for configuration property debug"
              eq_refl eq_refl eq_refl)
    as (s' & Hrun & Hp & _ & _ & Happ).
  exists s'. split; [exact Hrun|]. split; [exact Hp|exact Happ].
Defined.

Lemma init_allocates_fresh_witness :
  @heap_wf Scenario.stuck (@constructed _ Sim.host (Scenario.store 2000)) /\
  exists r s',
    @DoInit Scenario.stuck (Scenario.store 2000) Scenario.conn
      (@constructed _ Sim.host (Scenario.store 2000)) = Ret r s' /\
    heap_wf s'.
Proof.
  assert (Hwf : @heap_wf Scenario.stuck (@constructed _ Sim.host (Scenario.store 2000)))
    by (intros a _; apply lookup_empty).
  split; [exact Hwf|].
  destruct (@init_allocates_fresh Scenario.stuck (Scenario.store 2000) Scenario.conn
              _ Hwf) as (r & s' & Hrun & Hwf' & _).
  exists r, s'. split; [exact Hrun|exact Hwf'].
Defined.

(** A wait bound of 4294967295 is -1 as an [int]: no poll. *)
Lemma finish_without_waiting_witness :
  to_int (BifConst.max_wait_on_shutdown (Scenario.store 4294967295)) < 0 /\
  exists s',
    @DoFinish Scenario.stuck 1 (Scenario.store 4294967295) Scenario.ready
      = Ret false s' /\
    appended Scenario.ready s' [MsgError "Unable to deliver 1 message(s)"].
Proof.
  destruct ready_live as (Hf & Hp & Ht).
  assert (Hneg : to_int (BifConst.max_wait_on_shutdown (Scenario.store 4294967295)) < 0)
    by reflexivity.
  split; [exact Hneg|].
  destruct (@finish_without_waiting Scenario.stuck 0 (Scenario.store 4294967295)
              Scenario.ready _ _ _ _ _ _ Hf Hp Ht (or_intror Hneg))
    as (s' & Hrun & Happ & _).
  exists s'. split; [exact Hrun|exact Happ].
Defined.

Lemma ready_draining_live :
  @live_formatter Scenario.draining Runs.ready_draining 0 (JSON TS_EPOCH) /\
  @live_producer Scenario.draining Runs.ready_draining 2 Runs.draining_producer /\
  @live_topic Scenario.draining Runs.ready_draining 4 "conn".
Proof. repeat split. Defined.

(** The wait bound at [INT_MAX], on the draining broker: one poll. *)
Lemma finish_drained_in_time_witness :
  @outq_len Scenario.draining (@polls Scenario.draining 1 1000 Runs.draining_producer) = 0 /\
  to_int (BifConst.max_wait_on_shutdown (Scenario.store 2147483647)) = INT_MAX /\
  exists s',
    @DoFinish Scenario.draining 5 (Scenario.store 2147483647) Runs.ready_draining
      = Ret true s' /\
    appended Runs.ready_draining s' [CallPoll 1000].
Proof.
  destruct ready_draining_live as (Hf & Hp & Ht).
  split; [reflexivity|]. split; [reflexivity|].
  destruct (@finish_drained_in_time Scenario.draining 5 (Scenario.store 2147483647)
              Runs.ready_draining _ _ _ _ _ _ 1 Hf Hp Ht)
    as (s' & Hrun & Happ & _).
  - intros i Hi. assert (i = 0)%nat as -> by lia. reflexivity.
  - reflexivity.
  - intros _. vm_compute. discriminate.
  - lia.
  - exists s'. split; [exact Hrun|exact Happ].
Defined.

Lemma finish_never_drains_witness :
  (forall i, 0 < @outq_len Scenario.stuck (@polls Scenario.stuck i 1000 Scenario.ready_producer)) /\
  exists s',
    @DoFinish Scenario.stuck 5 (Scenario.store 2000) Scenario.ready = Ret false s' /\
    appended Scenario.ready s'
      [CallPoll 1000; CallPoll 1000; CallPoll 1000;
       MsgError "Unable to deliver 1 message(s)"].
Proof.
  destruct ready_live as (Hf & Hp & Ht).
  assert (Hstuck : forall i, 0 < @outq_len Scenario.stuck
                                 (@polls Scenario.stuck i 1000 Scenario.ready_producer))
    by (intros i; rewrite stuck_polls; reflexivity).
  split; [exact Hstuck|].
  destruct (@finish_never_drains Scenario.stuck 5 (Scenario.store 2000)
              Scenario.ready _ _ _ _ _ _ Hf Hp Ht Hstuck)
    as (s' & Hrun & Happ & _).
  - vm_compute. split; discriminate.
  - vm_compute. lia.
  - exists s'. split; [exact Hrun|exact Happ].
Defined.

Lemma finish_terminates_without_overflow_witness :
  to_int (BifConst.max_wait_on_shutdown (Scenario.store 2000)) <= INT_MAX - 1000 /\
  exists n r s',
    Z.of_nat n <= 3 /\
    @DoFinish Scenario.stuck (S n) (Scenario.store 2000) Scenario.ready = Ret r s'.
Proof.
  destruct ready_live as (Hf & Hp & Ht).
  assert (Hmw : to_int (BifConst.max_wait_on_shutdown (Scenario.store 2000))
                <= INT_MAX - 1000) by (vm_compute; discriminate).
  split; [exact Hmw|].
  destruct (@finish_terminates_without_overflow Scenario.stuck (Scenario.store 2000)
              Scenario.ready _ _ _ _ _ _ Hf Hp Ht Hmw)
    as (n & r & s' & Hn & Hrun & _).
  exists n, r, s'. split; [exact Hn|exact Hrun].
Defined.

Lemma calls_without_producer_undefined_witness :
  producer (this (@constructed Scenario.stuck Sim.host (Scenario.store 2000))) = NULL /\
  @DoFlush Scenario.stuck (@constructed _ Sim.host (Scenario.store 2000)) = Undefined /\
  @DoWrite Scenario.stuck Sim.host "a" (@constructed _ Sim.host (Scenario.store 2000)) = Undefined.
Proof.
  split; [reflexivity|].
  destruct (@calls_without_producer_undefined Scenario.stuck Sim.host
              (@constructed _ Sim.host (Scenario.store 2000)) eq_refl)
    as (Hflush & _ & Hwrite & _).
  split; [exact Hflush|exact (Hwrite "a")].
Defined.

Lemma after_calls_run :
  @do_calls Scenario.stuck Sim.host Scenario.calls Scenario.ready
    = Ret [true; true; true] Runs.after_calls.
Proof. vm_compute. reflexivity. Defined.

Lemma finished_run :
  @DoFinish Scenario.stuck 5 (Scenario.store 2000) Runs.after_calls
    = Ret false Runs.finished.
Proof. vm_compute. reflexivity. Defined.

Lemma after_calls_live :
  @live_formatter Scenario.stuck Runs.after_calls 0 (JSON TS_EPOCH) /\
  @live_producer Scenario.stuck Runs.after_calls 2
     (Sim.mkProducer ["m1"; "{a}"] 2 16 0) /\
  @live_topic Scenario.stuck Runs.after_calls 4 "conn".
Proof. repeat split; vm_compute; reflexivity. Defined.

Lemma calls_after_finish_undefined_witness :
  @DoFinish Scenario.stuck 5 (Scenario.store 2000) Runs.after_calls
    = Ret false Runs.finished /\
  producer (this Runs.finished) = Some 2%nat /\
  @DoFlush Scenario.stuck Runs.finished = Undefined /\
  @DoFinish Scenario.stuck 5 (Scenario.store 2000) Runs.finished = Undefined.
Proof.
  destruct after_calls_live as (Hf & Hp & Ht).
  split; [exact finished_run|].
  destruct (@calls_after_finish_undefined Scenario.stuck Sim.host 5 (Scenario.store 2000)
              Runs.after_calls _ _ _ _ _ _ false Runs.finished Hf Hp Ht finished_run)
    as (Hprod & _ & _ & Hflush & _ & _ & Hfin).
  split; [exact Hprod|]. split; [exact Hflush|]. exact (Hfin 4%nat _).
Defined.

Lemma half_ready_live :
  @live_formatter Scenario.stuck Runs.half_ready 0 (JSON TS_EPOCH) /\
  @live_producer Scenario.stuck Runs.half_ready 2 Scenario.ready_producer /\
  topic (this Runs.half_ready) = NULL.
Proof. repeat split. Defined.

Lemma finish_after_topic_failure_witness :
  topic (this Runs.half_ready) = NULL /\
  exists r s',
    @DoFinish Scenario.stuck 5 (Scenario.store 2000) Runs.half_ready = Ret r s' /\
    heap s' !! 2%nat = None /\ heap s' !! 0%nat = None.
Proof.
  destruct half_ready_live as (Hf & Hp & Ht).
  split; [exact Ht|].
  assert (Hex : @exits_at Scenario.stuck Scenario.ready_producer 0
                  (to_int (BifConst.max_wait_on_shutdown (Scenario.store 2000))) 3).
  { split; [reflexivity|]. intros i Hi.
    destruct i as [|[|[|i]]]; [reflexivity..|lia]. }
  destruct (@finish_after_topic_failure Scenario.stuck 5 (Scenario.store 2000)
              Runs.half_ready _ _ _ _ 3 Hf Hp Ht Hex ltac:(lia))
    as (r & s' & Hrun & _ & Hgp & Hgf & _).
  exists r, s'. split; [exact Hrun|]. split; [exact Hgp|exact Hgf].
Defined.

Lemma calls_never_block_witness :
  @Operational Scenario.stuck Scenario.ready /\
  exists s' evs,
    @do_calls Scenario.stuck Sim.host Scenario.calls Scenario.ready
      = Ret [true; true; true] s' /\
    appended Scenario.ready s' evs /\
    existsb is_blocking_poll evs = false.
Proof.
  split; [exact ready_operational|].
  destruct (@calls_never_block Scenario.stuck Sim.host Scenario.calls Scenario.ready
              ready_operational) as (s' & evs & Hrun & Happ & Hb & _).
  exists s', evs. split; [exact Hrun|]. split; [exact Happ|exact Hb].
Defined.

Lemma write_submits_once_witness :
  @live_producer Scenario.stuck Scenario.ready 2 Scenario.ready_producer /\
  exists s' rest,
    @DoWrite Scenario.stuck Sim.host "a" Scenario.ready = Ret true s' /\
    appended Scenario.ready s' (CallProduce PARTITION_UA RK_MSG_COPY "{a}" :: rest).
Proof.
  destruct ready_live as (Hf & Hp & Ht).
  split; [exact Hp|].
  destruct (@write_submits_once Scenario.stuck Sim.host Scenario.ready "a"
              _ _ _ _ _ _ Hf Hp Ht) as (s' & rest & Hrun & Happ & _).
  exists s', rest. split; [exact Hrun|exact Happ].
Defined.

Lemma ready_run :
  @DoInit Scenario.stuck (Scenario.store 2000) Scenario.conn
    (@constructed _ Sim.host (Scenario.store 2000)) = Ret true Scenario.ready.
Proof. vm_compute. reflexivity. Defined.

Lemma write_uses_init_formatter_witness :
  @DoInit Scenario.stuck (Scenario.store 2000) Scenario.conn
    (@constructed _ Sim.host (Scenario.store 2000)) = Ret true Scenario.ready /\
  exists s2 rest,
    @DoWrite Scenario.stuck Sim.host "a" Scenario.ready = Ret true s2 /\
    appended Scenario.ready s2 (CallProduce PARTITION_UA RK_MSG_COPY "{a}" :: rest).
Proof.
  split; [exact ready_run|].
  destruct (@write_uses_init_formatter Scenario.stuck Sim.host _ _ _ _ "a" ready_run)
    as (s2 & rest & Hrun & Happ & _).
  exists s2, rest. split; [exact Hrun|exact Happ].
Defined.

Lemma conf_objects_outlive_finish_witness :
  @DoFinish Scenario.stuck 5 (Scenario.store 2000) Runs.after_calls
    = Ret false Runs.finished /\
  heap Runs.finished !! 1%nat
    = Some (OConf (gconf [("bootstrap.servers", "x")])) /\
  heap Runs.finished !! 3%nat = Some (OConf tconf_empty) /\
  heap Runs.finished !! 2%nat = None.
Proof.
  split; [exact finished_run|].
  destruct (@conf_objects_outlive_finish Scenario.stuck Sim.host _ _ _ _ _ _ _ _ _ _ _
              ready_run after_calls_run finished_run)
    as (_ & _ & Hc & Htc & _ & Hp & _).
  split; [exact Hc|]. split; [exact Htc|exact Hp].
Defined.
